(** * Tafawoq: subscription lifecycle, quota ledger and scoring

    A shallow embedding of the subscription core of the Tafawoq
    application:

    - [supabase/functions/stripe-webhook-handler/index.ts]
      (the webhook consumer),
    - [src/services/stripe/subscription.service.ts]
      (the client-side subscription service),
    - the SQL function [check_exam_eligibility] of [specs/main/plan.md],
    - the [user_subscriptions] schema of [specs/main/data-model.md].

    Timestamps are integers: milliseconds since the epoch on the
    TypeScript side ([Date] values), seconds since the epoch on the
    SQL side and in Stripe objects. *)

From Stdlib Require Import ZArith List String Bool Lia Permutation.
From Stdlib Require Import QArith Qround Lqa Qpower.
Import ListNotations.

Local Open Scope string_scope.
Local Open Scope Z_scope.
Local Open Scope list_scope.

(* ================================================================= *)
(** ** Exceptions *)

(** A computation either returns a value or throws. *)
Module Outcome.

Inductive Result (E A : Type) : Type :=
| Ok (a : A)
| Throw (e : E).

Arguments Ok {E A} a.
Arguments Throw {E A} e.

Definition bind {E A B} (m : Result E A) (k : A -> Result E B) : Result E B :=
  match m with
  | Ok a => k a
  | Throw e => Throw e
  end.

(** [try { body } catch (e) { handler e }] *)
Definition try_catch {E E' A} (body : Result E A) (handler : E -> Result E' A)
  : Result E' A :=
  match body with
  | Ok a => Ok a
  | Throw e => handler e
  end.

Definition is_ok {E A} (m : Result E A) : bool :=
  match m with Ok _ => true | Throw _ => false end.

End Outcome.
Import Outcome.

Notation "x <- m ;; k" := (bind m (fun x => k))
  (at level 61, m at next level, right associativity).

(* ================================================================= *)
(** ** Subscription types ([subscription.types.ts]) *)

Definition UUID := string.
Definition Timestamp := Z.

Inductive SubscriptionTier := free | premium.

Inductive SubscriptionStatus :=
| active | trialing | past_due | canceled | incomplete.

(** One row of [user_subscriptions]; the nullable columns are options. *)
Record Subscription := mkSubscription {
  id : UUID;
  user_id : UUID;
  stripe_customer_id : option string;
  stripe_subscription_id : option string;
  tier : SubscriptionTier;
  status : SubscriptionStatus;
  trial_end_at : option Timestamp;
  current_period_start : option Timestamp;
  current_period_end : option Timestamp;
  canceled_at : option Timestamp;
  created_at : Timestamp;
  updated_at : Timestamp
}.

Definition tier_eqb (a b : SubscriptionTier) : bool :=
  match a, b with
  | free, free | premium, premium => true
  | _, _ => false
  end.

Definition status_eqb (a b : SubscriptionStatus) : bool :=
  match a, b with
  | active, active | trialing, trialing | past_due, past_due
  | canceled, canceled | incomplete, incomplete => true
  | _, _ => false
  end.

(** [col = v] on a nullable text column: a NULL never matches. *)
Definition column_eq (col : option string) (v : string) : bool :=
  match col with
  | Some c => String.eqb c v
  | None => false
  end.

(** The record invariant of the data model: a free record carries no
    subscription reference, a premium record carries both references. *)
Definition record_invariant (r : Subscription) : Prop :=
  (tier r = free -> stripe_subscription_id r = None) /\
  (tier r = premium ->
     stripe_customer_id r <> None /\ stripe_subscription_id r <> None).

(* ================================================================= *)
(** ** The webhook consumer ([stripe-webhook-handler/index.ts]) *)

Module Webhook.

(** *** Stripe objects *)

(** [Stripe.Subscription.Status] of the pinned API version. *)
Inductive StripeStatus :=
| st_incomplete | st_incomplete_expired | st_trialing | st_active
| st_past_due | st_canceled | st_unpaid | st_paused.

(** A reference that Stripe delivers either as an id or expanded. *)
Inductive Expandable :=
| by_id (s : string)
| expanded (object_id : string).

Record StripeSubscription := mkStripeSubscription {
  sub_id : string;
  sub_customer : Expandable;
  sub_status : StripeStatus;
  sub_trial_end : option Z;
  sub_current_period_start : Z;
  sub_current_period_end : Z;
  sub_cancel_at_period_end : bool;
  sub_canceled_at : option Z
}.

Record StripeInvoice := mkStripeInvoice {
  inv_subscription : option Expandable
}.

Inductive EventPayload :=
| customer_subscription_created (s : StripeSubscription)
| customer_subscription_updated (s : StripeSubscription)
| customer_subscription_deleted (s : StripeSubscription)
| invoice_payment_failed (i : StripeInvoice)
| unhandled (type : string).

(** [event.id] and [event.created] travel with every event; the
    handlers below never read them. *)
Record StripeEvent := mkStripeEvent {
  ev_id : string;
  ev_created : Z;
  ev_payload : EventPayload
}.

(** *** The database *)

Record UserAnalytics := mkUserAnalytics {
  ua_user_id : UUID;
  ua_updated_at : Timestamp
}.

Record Database := mkDatabase {
  user_subscriptions : list Subscription;
  user_analytics : list UserAnalytics
}.

Inductive PostgrestError :=
| no_single_row            (* PGRST116: .single() saw 0 or several rows *)
| check_violation          (* CHECK (status IN (...)) *)
| unique_violation.        (* stripe_subscription_id TEXT UNIQUE *)

(** The payload of [.update({...})]: the columns that are assigned. *)
Record UpdateData := mkUpdateData {
  upd_stripe_subscription_id : option string;
  upd_tier : option SubscriptionTier;
  upd_status : option StripeStatus;
  upd_trial_end_at : option (option Timestamp);
  upd_current_period_start : option (option Timestamp);
  upd_current_period_end : option (option Timestamp);
  upd_canceled_at : option (option Timestamp);
  upd_updated_at : option Timestamp
}.

(** The CHECK constraint of the [status] column: only five of the
    Stripe statuses can be stored. *)
Definition status_column (s : StripeStatus) : option SubscriptionStatus :=
  match s with
  | st_active => Some active
  | st_trialing => Some trialing
  | st_past_due => Some past_due
  | st_canceled => Some canceled
  | st_incomplete => Some incomplete
  | st_incomplete_expired | st_unpaid | st_paused => None
  end.

Definition assign {A} (new : option A) (old : A) : A :=
  match new with Some v => v | None => old end.

Definition patch_row (u : UpdateData) (r : Subscription) : option Subscription :=
  match
    match upd_status u with
    | Some s => status_column s
    | None => Some (status r)
    end
  with
  | None => None
  | Some st =>
      Some {| id := id r;
              user_id := user_id r;
              stripe_customer_id := stripe_customer_id r;
              stripe_subscription_id :=
                match upd_stripe_subscription_id u with
                | Some s => Some s
                | None => stripe_subscription_id r
                end;
              tier := assign (upd_tier u) (tier r);
              status := st;
              trial_end_at := assign (upd_trial_end_at u) (trial_end_at r);
              current_period_start :=
                assign (upd_current_period_start u) (current_period_start r);
              current_period_end :=
                assign (upd_current_period_end u) (current_period_end r);
              canceled_at := assign (upd_canceled_at u) (canceled_at r);
              created_at := created_at r;
              updated_at := assign (upd_updated_at u) (updated_at r) |}
  end.

Fixpoint patch_rows (u : UpdateData) (where_ : Subscription -> bool)
  (t : list Subscription) : option (list Subscription) :=
  match t with
  | [] => Some []
  | r :: t' =>
      match (if where_ r then patch_row u r else Some r), patch_rows u where_ t' with
      | Some r', Some t'' => Some (r' :: t'')
      | _, _ => None
      end
  end.

Fixpoint subscription_ids (t : list Subscription) : list string :=
  match t with
  | [] => []
  | r :: t' =>
      match stripe_subscription_id r with
      | Some s => s :: subscription_ids t'
      | None => subscription_ids t'
      end
  end.

Fixpoint distinct (l : list string) : bool :=
  match l with
  | [] => true
  | s :: l' => negb (existsb (String.eqb s) l') && distinct l'
  end.

(** [UPDATE user_subscriptions SET ... WHERE ...]: the statement is
    atomic, a violated constraint leaves the table as it was. *)
Definition pg_update (u : UpdateData) (where_ : Subscription -> bool)
  (t : list Subscription) : Result PostgrestError (list Subscription) :=
  match patch_rows u where_ t with
  | None => Throw check_violation
  | Some t' =>
      if distinct (subscription_ids t') then Ok t' else Throw unique_violation
  end.

(** [.select('user_id').eq(col, v).single()] *)
Definition pg_select_single (where_ : Subscription -> bool)
  (t : list Subscription) : Result PostgrestError Subscription :=
  match filter where_ t with
  | [r] => Ok r
  | _ => Throw no_single_row
  end.

(** [.upsert({user_id, updated_at}, {onConflict: 'user_id',
    ignoreDuplicates: true})] *)
Definition pg_upsert_ignore (row : UserAnalytics) (t : list UserAnalytics)
  : list UserAnalytics :=
  if existsb (fun a => String.eqb (ua_user_id a) (ua_user_id row)) t
  then t
  else t ++ [row].

(** *** Handlers *)

Inductive HandlerError :=
| user_not_found (customer : string)
| update_failed (e : PostgrestError).

(** A handler runs against the database and either completes or
    throws; the database after the call is returned in both cases.
    [now] is what [new Date()] reads during the call (the reads of one
    call are taken at the same instant). *)
Definition Handler := Database -> Result HandlerError unit * Database.

Definition no_update : UpdateData :=
  mkUpdateData None None None None None None None None.

Definition expandable_id (x : Expandable) : string :=
  match x with
  | by_id s => s
  | expanded object_id => object_id
  end.

(** [ts ? new Date(ts * 1000).toISOString() : null] *)
Definition date_of_seconds_or_null (ts : option Z) : option Timestamp :=
  match ts with
  | Some s => if s =? 0 then None else Some (s * 1000)
  | None => None
  end.

Definition handleSubscriptionCreated (now : Timestamp)
  (subscription : StripeSubscription) : Handler :=
  fun db =>
    let customerId := expandable_id (sub_customer subscription) in
    match pg_select_single
            (fun r => column_eq (stripe_customer_id r) customerId)
            (user_subscriptions db) with
    | Throw _ => (Throw (user_not_found customerId), db)
    | Ok existingSubscription =>
        let userId := user_id existingSubscription in
        match pg_update
                {| upd_stripe_subscription_id := Some (sub_id subscription);
                   upd_tier := Some premium;
                   upd_status := Some (sub_status subscription);
                   upd_trial_end_at :=
                     Some (date_of_seconds_or_null (sub_trial_end subscription));
                   upd_current_period_start :=
                     Some (Some (sub_current_period_start subscription * 1000));
                   upd_current_period_end :=
                     Some (Some (sub_current_period_end subscription * 1000));
                   upd_canceled_at := None;
                   upd_updated_at := Some now |}
                (fun r => column_eq (stripe_customer_id r) customerId)
                (user_subscriptions db) with
        | Throw updateError => (Throw (update_failed updateError), db)
        | Ok t' =>
            (Ok tt,
             {| user_subscriptions := t';
                user_analytics :=
                  pg_upsert_ignore
                    {| ua_user_id := userId; ua_updated_at := now |}
                    (user_analytics db) |})
        end
    end.

Definition shouldDowngrade (subscription : StripeSubscription) : bool :=
  match sub_status subscription with
  | st_canceled => negb (sub_cancel_at_period_end subscription)
  | _ => false
  end.

Definition handleSubscriptionUpdated (now : Timestamp)
  (subscription : StripeSubscription) : Handler :=
  fun db =>
    let updateData :=
      {| upd_stripe_subscription_id := None;
         upd_tier := if shouldDowngrade subscription then Some free else None;
         upd_status := Some (sub_status subscription);
         upd_trial_end_at := None;
         upd_current_period_start := None;
         upd_current_period_end := None;
         upd_canceled_at :=
           Some (date_of_seconds_or_null (sub_canceled_at subscription));
         upd_updated_at := Some now |} in
    match pg_update updateData
            (fun r => column_eq (stripe_subscription_id r) (sub_id subscription))
            (user_subscriptions db) with
    | Throw error => (Throw (update_failed error), db)
    | Ok t' =>
        (Ok tt, {| user_subscriptions := t'; user_analytics := user_analytics db |})
    end.

Definition handleSubscriptionDeleted (now : Timestamp)
  (subscription : StripeSubscription) : Handler :=
  fun db =>
    match pg_update
            {| upd_stripe_subscription_id := None;
               upd_tier := Some free;
               upd_status := Some st_canceled;
               upd_trial_end_at := None;
               upd_current_period_start := None;
               upd_current_period_end := None;
               upd_canceled_at := Some (Some now);
               upd_updated_at := Some now |}
            (fun r => column_eq (stripe_subscription_id r) (sub_id subscription))
            (user_subscriptions db) with
    | Throw error => (Throw (update_failed error), db)
    | Ok t' =>
        (Ok tt, {| user_subscriptions := t'; user_analytics := user_analytics db |})
    end.

Definition handlePaymentFailed (now : Timestamp) (invoice : StripeInvoice)
  : Handler :=
  fun db =>
    match option_map expandable_id (inv_subscription invoice) with
    | None => (Ok tt, db)
    | Some subscriptionId =>
        if String.eqb subscriptionId "" then (Ok tt, db)
        else
          match pg_update
                  {| upd_stripe_subscription_id := None;
                     upd_tier := None;
                     upd_status := Some st_past_due;
                     upd_trial_end_at := None;
                     upd_current_period_start := None;
                     upd_current_period_end := None;
                     upd_canceled_at := None;
                     upd_updated_at := Some now |}
                  (fun r => column_eq (stripe_subscription_id r) subscriptionId)
                  (user_subscriptions db) with
          | Throw error => (Throw (update_failed error), db)
          | Ok t' =>
              (Ok tt,
               {| user_subscriptions := t'; user_analytics := user_analytics db |})
          end
    end.

(** The [switch (event.type)] of the main handler. *)
Definition dispatch (now : Timestamp) (event : StripeEvent) : Handler :=
  match ev_payload event with
  | customer_subscription_created s => handleSubscriptionCreated now s
  | customer_subscription_updated s => handleSubscriptionUpdated now s
  | customer_subscription_deleted s => handleSubscriptionDeleted now s
  | invoice_payment_failed i => handlePaymentFailed now i
  | unhandled _ => fun db => (Ok tt, db)
  end.

(** What the inner [try]/[catch] leaves behind: the processing error is
    logged and swallowed, the database is whatever the handler left. *)
Definition applyLifecycleEvent (now : Timestamp) (event : StripeEvent)
  (db : Database) : Database :=
  snd (dispatch now event db).

(** *** The HTTP entry point *)

Record Request := mkRequest {
  req_method : string;
  req_text : option string;              (* [None]: reading the body rejects *)
  req_stripe_signature : option string   (* [headers.get('stripe-signature')] *)
}.

Inductive ResponseBody :=
| error_body (message : string)
| received_body.

Record Response := mkResponse {
  resp_status : Z;
  resp_body : ResponseBody
}.

Section Serve.

(** [stripe.webhooks.constructEvent(body, signature, secret)] with the
    configured secret: the event, or an exception. *)
Variable constructEvent : string -> string -> Result unit StripeEvent.

Definition verifyWebhookSignature (body signature : string)
  : option StripeEvent :=
  match try_catch (event <- constructEvent body signature ;; Ok (Some event))
                  (fun _ => Ok (E := unit) None) with
  | Ok r => r
  | Throw _ => None
  end.

Definition serve (now : Timestamp) (req : Request) (db : Database)
  : Response * Database :=
  if negb (String.eqb (req_method req) "POST") then
    ({| resp_status := 405; resp_body := error_body "Method not allowed" |}, db)
  else
    match req_text req with
    | None =>
        ({| resp_status := 500; resp_body := error_body "Internal server error" |},
         db)
    | Some body =>
        match req_stripe_signature req with
        | None =>
            ({| resp_status := 400;
                resp_body := error_body "Missing stripe-signature header" |}, db)
        | Some signature =>
            if String.eqb signature "" then
              ({| resp_status := 400;
                  resp_body := error_body "Missing stripe-signature header" |}, db)
            else
              match verifyWebhookSignature body signature with
              | None =>
                  ({| resp_status := 400;
                      resp_body := error_body "Invalid signature" |}, db)
              | Some event =>
                  match dispatch now event db with
                  | (Ok _, db') =>
                      ({| resp_status := 200; resp_body := received_body |}, db')
                  | (Throw processingError, db') =>
                      ({| resp_status := 200; resp_body := received_body |}, db')
                  end
              end
        end
    end.

End Serve.

End Webhook.

(* ================================================================= *)
(** ** The subscription service ([subscription.service.ts]) *)

Module Service.

(** What a [catch] can see: a [ServiceError] with its code, or any
    other thrown value. *)
Inductive JsError :=
| ServiceError (code : string)
| OtherError.

(** The backend as one request sees it: the rows of
    [user_subscriptions], and what goes wrong with the request, if
    anything. *)
Inductive Fault :=
| postgrest_error (code : string)   (* the reply carries [error] *)
| rejects.                          (* the awaited promise rejects *)

Record Backend := mkBackend {
  rows : list Subscription;
  fault : option Fault
}.

Record QueryReply := mkQueryReply {
  data : option Subscription;
  error : option string
}.

(** [supabase.from('user_subscriptions').select('*')
       .eq('user_id', userId).single()] *)
Definition select_single_by_user (b : Backend) (userId : UUID)
  : Result JsError QueryReply :=
  match fault b with
  | Some rejects => Throw OtherError
  | Some (postgrest_error code) => Ok {| data := None; error := Some code |}
  | None =>
      match filter (fun r => String.eqb (user_id r) userId) (rows b) with
      | [r] => Ok {| data := Some r; error := None |}
      | _ => Ok {| data := None; error := Some "PGRST116" |}
      end
  end.

Definition rethrow_or_wrap {A} (code : string) (e : JsError) : Result JsError A :=
  match e with
  | ServiceError _ => Throw e
  | OtherError => Throw (ServiceError code)
  end.

Definition getSubscription (b : Backend) (userId : UUID)
  : Result JsError (option Subscription) :=
  try_catch
    (reply <- select_single_by_user b userId ;;
     match error reply with
     | Some code =>
         if String.eqb code "PGRST116" then Ok None
         else Throw (ServiceError "SUBSCRIPTION_FETCH_FAILED")
     | None =>
         match data reply with
         | None => Ok None
         | Some d =>
             Ok (Some {| id := id d;
                         user_id := user_id d;
                         stripe_customer_id := stripe_customer_id d;
                         stripe_subscription_id := stripe_subscription_id d;
                         tier := tier d;
                         status := status d;
                         trial_end_at := trial_end_at d;
                         current_period_start := current_period_start d;
                         current_period_end := current_period_end d;
                         canceled_at := canceled_at d;
                         created_at := created_at d;
                         updated_at := updated_at d |})
         end
     end)
    (rethrow_or_wrap "SUBSCRIPTION_FETCH_ERROR").

Definition premium_and_live (subscription : Subscription) : bool :=
  tier_eqb (tier subscription) premium &&
  (status_eqb (status subscription) active ||
   status_eqb (status subscription) trialing).

Definition hasPremiumAccess (b : Backend) (userId : UUID) : Result JsError bool :=
  try_catch
    (subscription <- getSubscription b userId ;;
     match subscription with
     | None => Ok false
     | Some s => Ok (premium_and_live s)
     end)
    (fun _ => Ok false).

(** *** Polling after payment *)

Inductive Effect :=
| Sleep (ms : Z)
| Fetch.

Definition maxAttempts : nat := 3.
Definition delays : list Z := [1000; 2000; 3000].

Fixpoint fetches (trace : list Effect) : nat :=
  match trace with
  | [] => 0
  | Fetch :: t => S (fetches t)
  | Sleep _ :: t => fetches t
  end.

Fixpoint slept (trace : list Effect) : list Z :=
  match trace with
  | [] => []
  | Sleep ms :: t => ms :: slept t
  | Fetch :: t => slept t
  end.

Section Polling.

(** The store changes while the client waits: [world k] is the backend
    as the [k]-th lookup of one call finds it (counting from 0). *)
Variable world : nat -> Backend.
Variable userId : UUID.

(** The [for] loop, [remaining = maxAttempts - attempt] iterations
    left. [Ok (Some s)] is the early [return], [Ok None] falling out of
    the loop. *)
Fixpoint poll (remaining attempt : nat)
  : Result JsError (option Subscription) * list Effect :=
  match remaining with
  | O => (Ok None, [])
  | S remaining' =>
      let wait :=
        if (0 <? attempt)%nat then [Sleep (nth (attempt - 1) delays 0)] else [] in
      let again :=
        let (r, trace) := poll remaining' (S attempt) in
        (r, wait ++ Fetch :: trace) in
      match getSubscription (world attempt) userId with
      | Throw e => (Throw e, wait ++ [Fetch])
      | Ok (Some subscription) =>
          if tier_eqb (tier subscription) premium
          then (Ok (Some subscription), wait ++ [Fetch])
          else again
      | Ok None => again
      end
  end.

Definition refreshSubscriptionStatus
  : Result JsError Subscription * list Effect :=
  match poll maxAttempts 0 with
  | (Throw e, trace) => (rethrow_or_wrap "REFRESH_ERROR" e, trace)
  | (Ok (Some subscription), trace) => (Ok subscription, trace)
  | (Ok None, trace) =>
      match getSubscription (world (fetches trace)) userId with
      | Throw e => (rethrow_or_wrap "REFRESH_ERROR" e, trace ++ [Fetch])
      | Ok None => (Throw (ServiceError "SUBSCRIPTION_NOT_FOUND"), trace ++ [Fetch])
      | Ok (Some finalSubscription) => (Ok finalSubscription, trace ++ [Fetch])
      end
  end.

End Polling.

End Service.

(* ================================================================= *)
(** ** The quota ledger ([check_exam_eligibility], [plan.md] 2.1) *)

Module Quota.

Inductive ExamSessionStatus := in_progress | completed | abandoned.

(** One row of [exam_sessions]; timestamps in seconds. *)
Record ExamSession := mkExamSession {
  session_id : UUID;
  session_user_id : UUID;
  session_status : ExamSessionStatus;
  started_at : Timestamp;
  completed_at : option Timestamp;
  total_questions : Z;
  questions_answered : Z
}.

Definition is_completed (s : ExamSessionStatus) : bool :=
  match s with completed => true | _ => false end.

(** [INTERVAL '7 days'] *)
Definition INTERVAL_7_days : Z := 7 * 86400.

Record EligibilityRow := mkEligibilityRow {
  eligible : bool;
  reason : string;
  next_available_at : option Timestamp
}.

(** [SELECT tier INTO user_tier FROM user_subscriptions WHERE user_id =
    check_user_id]: NULL when the user has no row. *)
Definition select_tier (subscriptions : list Subscription) (check_user_id : UUID)
  : option SubscriptionTier :=
  option_map tier
    (find (fun r => String.eqb (user_id r) check_user_id) subscriptions).

(** The WHERE clause of the count. *)
Definition counts_toward_limit (check_user_id : UUID) (now : Timestamp)
  (s : ExamSession) : bool :=
  String.eqb (session_user_id s) check_user_id &&
  is_completed (session_status s) &&
  (now - INTERVAL_7_days <? started_at s).

(** [MAX(...)]: NULL over no rows. *)
Fixpoint sql_max (l : list Z) : option Z :=
  match l with
  | [] => None
  | x :: l' =>
      match sql_max l' with
      | None => Some x
      | Some m => Some (Z.max x m)
      end
  end.

Definition check_exam_eligibility (subscriptions : list Subscription)
  (exam_sessions : list ExamSession) (now : Timestamp) (check_user_id : UUID)
  : EligibilityRow :=
  match select_tier subscriptions check_user_id with
  | Some premium =>
      {| eligible := true; reason := "Premium access"; next_available_at := None |}
  | _ =>
      let counted := filter (counts_toward_limit check_user_id now) exam_sessions in
      let exams_this_week := Z.of_nat (List.length counted) in
      let last_exam_at := sql_max (map started_at counted) in
      if 1 <=? exams_this_week then
        {| eligible := false;
           reason := "Free tier limit: 1 exam per week";
           next_available_at :=
             option_map (fun t => t + INTERVAL_7_days) last_exam_at |}
      else
        {| eligible := true; reason := "Eligible"; next_available_at := None |}
  end.

(** *** The fixed weekly window of the specification

    Sunday 00:00 UTC through Saturday 23:59:59 UTC. Day 0 of the epoch
    is a Thursday. *)

Definition spec_week_start (now : Timestamp) : Timestamp :=
  let day := now / 86400 in
  (day - (day + 4) mod 7) * 86400.

Definition spec_next_week_start (now : Timestamp) : Timestamp :=
  spec_week_start now + 7 * 86400.

Definition spec_completed_this_week (exam_sessions : list ExamSession)
  (now : Timestamp) (check_user_id : UUID) : list ExamSession :=
  filter (fun s =>
            String.eqb (session_user_id s) check_user_id &&
            is_completed (session_status s) &&
            (spec_week_start now <=? started_at s) &&
            (started_at s <? spec_next_week_start now))
         exam_sessions.

(** The specification's rule for a free-tier user, as a statement
    about one input of [check_exam_eligibility]. *)
Definition spec_fixed_week_rule (subscriptions : list Subscription)
  (exam_sessions : list ExamSession) (now : Timestamp) (check_user_id : UUID)
  : Prop :=
  let r := check_exam_eligibility subscriptions exam_sessions now check_user_id in
  let this_week := spec_completed_this_week exam_sessions now check_user_id in
  (eligible r = true <-> this_week = []) /\
  (List.length this_week = 1%nat ->
   eligible r = false /\
   next_available_at r = Some (spec_next_week_start now)).

End Quota.

(* ================================================================= *)
(** ** The scoring engine *)

Module Scoring.

(** The scoring engine ([submitExam] and [submitPractice] of the exam
    and practice services) is not among the sources; only its types
    ([exam.types.ts], [common.types.ts]) and the [exam_results] schema
    are. The types below are the repository's, the functions follow
    section 4.5 of the specification. *)

Inductive Section_ := verbal | quantitative | mixed.

Inductive QuestionCategory :=
| basic_operations | geometry | roots_exponents
| analogies | sentence_completion | contextual_error
| odd_word_out | reading_comprehension.

(** [CATEGORIES], in declaration order. *)
Definition CATEGORIES : list QuestionCategory :=
  [basic_operations; geometry; roots_exponents;
   analogies; sentence_completion; contextual_error;
   odd_word_out; reading_comprehension].


Definition category_eqb (a b : QuestionCategory) : bool :=
  match a, b with
  | basic_operations, basic_operations | geometry, geometry
  | roots_exponents, roots_exponents | analogies, analogies
  | sentence_completion, sentence_completion
  | contextual_error, contextual_error | odd_word_out, odd_word_out
  | reading_comprehension, reading_comprehension => true
  | _, _ => false
  end.

Record Question := mkQuestion {
  q_id : UUID;
  q_section : Section_;
  q_category : QuestionCategory;
  correct_answer : string
}.

Record QuestionAnswer := mkQuestionAnswer {
  question_id : UUID;
  answer : string;
  time_spent_seconds : Z
}.

Record CategoryPerformance := mkCategoryPerformance {
  category : QuestionCategory;
  score : Q;
  questions_count : nat;
  correct_count : nat
}.

(** Modelled from the spec: the scoring engine is missing; the answer
    submitted for an item of the session, if any. *)
Definition submitted (answers : list QuestionAnswer) (q : Question)
  : option string :=
  option_map answer
    (find (fun a => String.eqb (question_id a) (q_id q)) answers).

Definition is_correct (answers : list QuestionAnswer) (q : Question) : bool :=
  match submitted answers q with
  | Some a => String.eqb a (correct_answer q)
  | None => false
  end.

Definition attempted (answers : list QuestionAnswer) (q : Question) : bool :=
  match submitted answers q with Some _ => true | None => false end.

(** Modelled from the spec: the scoring engine is missing; "rounded to
    two decimals", halves up. *)
Definition round2 (x : Q) : Q :=
  Qmake (Qfloor (x * 100 + (1 # 2))%Q) 100.

(** Modelled from the spec: the scoring engine is missing;
    "(correct / total) x 100", undefined over no items. *)
Definition percentage (correct total : nat) : option Q :=
  match total with
  | O => None
  | S _ => Some (Qmake (Z.of_nat correct * 100) (Pos.of_nat total))
  end.

Definition rounded_percentage (correct total : nat) : option Q :=
  option_map round2 (percentage correct total).

Definition count_correct (answers : list QuestionAnswer) (qs : list Question)
  : nat :=
  List.length (filter (is_correct answers) qs).


Definition in_category (c : QuestionCategory) (qs : list Question)
  : list Question :=
  filter (fun q => category_eqb (q_category q) c) qs.



(** Modelled from the spec: the scoring engine is missing;
    "per-category score = percentage correct within that category", a
    category with no attempted item has no score and is left out. *)
Definition category_performance (questions : list Question)
  (answers : list QuestionAnswer) (c : QuestionCategory)
  : option CategoryPerformance :=
  let qs := in_category c questions in
  match existsb (attempted answers) qs, percentage (count_correct answers qs) (List.length qs) with
  | true, Some p =>
      Some {| category := c; score := p;
              questions_count := List.length qs;
              correct_count := count_correct answers qs |}
  | _, _ => None
  end.

Fixpoint somes {A} (l : list (option A)) : list A :=
  match l with
  | [] => []
  | Some x :: l' => x :: somes l'
  | None :: l' => somes l'
  end.

Definition category_scores (questions : list Question)
  (answers : list QuestionAnswer) : list CategoryPerformance :=
  somes (map (category_performance questions answers) CATEGORIES).

(** Stable insertion sort; [before a b] says [a] must come first. *)
Fixpoint insert_by (before : CategoryPerformance -> CategoryPerformance -> bool)
  (x : CategoryPerformance) (l : list CategoryPerformance)
  : list CategoryPerformance :=
  match l with
  | [] => [x]
  | y :: l' => if before y x then x :: y :: l' else y :: insert_by before x l'
  end.

Definition sort_by (before : CategoryPerformance -> CategoryPerformance -> bool)
  (l : list CategoryPerformance) : list CategoryPerformance :=
  fold_right (insert_by before) [] l.

Definition Qltb (a b : Q) : bool := negb (Qle_bool b a).

(** Modelled from the spec: the scoring engine is missing; "up to
    three categories with the highest per-category scores that are at
    or above the overall average", ties in declaration order. *)
Definition strengths (overall : Q) (cats : list CategoryPerformance)
  : list CategoryPerformance :=
  firstn 3
    (sort_by (fun y x => Qltb (score y) (score x))
       (filter (fun c => Qle_bool overall (score c)) cats)).

(** Modelled from the spec: the scoring engine is missing; "up to
    three categories with the lowest scores below the overall average",
    ties in declaration order. *)
Definition weaknesses (overall : Q) (cats : list CategoryPerformance)
  : list CategoryPerformance :=
  firstn 3
    (sort_by (fun y x => Qltb (score x) (score y))
       (filter (fun c => Qltb (score c) overall) cats)).


Record PracticeResult := mkPracticeResult {
  overall_score : option Q;
  category_breakdown : list CategoryPerformance;
  practice_strengths : list CategoryPerformance;
  practice_weaknesses : list CategoryPerformance
}.

Definition with_average {A} (overall : option Q) (f : Q -> list A) : list A :=
  match overall with
  | Some avg => f avg
  | None => []
  end.


(** Modelled from the spec: the scoring engine is missing; the result
    of a practice session: one aggregate score and the per-category
    breakdown. *)
Definition score_practice (questions : list Question)
  (answers : list QuestionAnswer) : PracticeResult :=
  let overall :=
    rounded_percentage (count_correct answers questions) (List.length questions) in
  let cats := category_scores questions answers in
  {| overall_score := overall;
     category_breakdown := cats;
     practice_strengths := with_average overall (fun a => strengths a cats);
     practice_weaknesses := with_average overall (fun a => weaknesses a cats) |}.



End Scoring.

(* ================================================================= *)
(** ** Concrete stores and events *)

Module Scenario.

Import Webhook.

(** A user who has been through checkout (the customer reference is
    set) and is still on the free tier. *)
Definition free_record : Subscription :=
  {| id := "row-1"; user_id := "user-1";
     stripe_customer_id := Some "cus_1"; stripe_subscription_id := None;
     tier := free; status := active;
     trial_end_at := None; current_period_start := None;
     current_period_end := None; canceled_at := None;
     created_at := 1764979200000; updated_at := 1764979200000 |}.

Definition premium_record : Subscription :=
  {| id := "row-1"; user_id := "user-1";
     stripe_customer_id := Some "cus_1";
     stripe_subscription_id := Some "sub_1";
     tier := premium; status := active;
     trial_end_at := None;
     current_period_start := Some 1764979200000;
     current_period_end := Some 1767657600000;
     canceled_at := None;
     created_at := 1764979200000; updated_at := 1764979200000 |}.

Definition free_store : Database :=
  {| user_subscriptions := [free_record]; user_analytics := [] |}.

Definition premium_store : Database :=
  {| user_subscriptions := [premium_record]; user_analytics := [] |}.

Definition stripe_sub (st : StripeStatus) : StripeSubscription :=
  {| sub_id := "sub_1"; sub_customer := by_id "cus_1"; sub_status := st;
     sub_trial_end := Some 1765584000;
     sub_current_period_start := 1764979200;
     sub_current_period_end := 1767657600;
     sub_cancel_at_period_end := false;
     sub_canceled_at := None |}.

(** [subscription.created] with status trialing, emitted at 12:00:10. *)
Definition created_trialing : StripeEvent :=
  {| ev_id := "evt_2"; ev_created := 1765022410;
     ev_payload := customer_subscription_created (stripe_sub st_trialing) |}.

(** [subscription.updated] with status incomplete, emitted ten seconds
    earlier. *)
Definition older_incomplete : StripeEvent :=
  {| ev_id := "evt_1"; ev_created := 1765022400;
     ev_payload := customer_subscription_updated (stripe_sub st_incomplete) |}.

Definition deleted_event : StripeEvent :=
  {| ev_id := "evt_3"; ev_created := 1765108800;
     ev_payload := customer_subscription_deleted (stripe_sub st_canceled) |}.

Definition updated_past_due : StripeEvent :=
  {| ev_id := "evt_4"; ev_created := 1765108800;
     ev_payload := customer_subscription_updated (stripe_sub st_past_due) |}.

(** Stripe's signature check, for a secret under which exactly the
    signature ["t=1,v1=good"] is valid for any body. *)
Definition constructEvent_for (event : StripeEvent) (body signature : string)
  : Result unit StripeEvent :=
  if String.eqb signature "t=1,v1=good" then Ok event else Throw tt.

Definition post (signature : option string) : Request :=
  {| req_method := "POST"; req_text := Some "{}";
     req_stripe_signature := signature |}.

(** A created event for a customer nobody has: processing throws. *)
Definition created_unknown_customer : StripeEvent :=
  {| ev_id := "evt_5"; ev_created := 1765108800;
     ev_payload :=
       customer_subscription_created
         {| sub_id := "sub_9"; sub_customer := by_id "cus_9";
            sub_status := st_active; sub_trial_end := None;
            sub_current_period_start := 1764979200;
            sub_current_period_end := 1767657600;
            sub_cancel_at_period_end := false;
            sub_canceled_at := None |} |}.

End Scenario.

Module QuotaScenario.

Import Quota.

Definition session (sid : UUID) (st : ExamSessionStatus) (start : Timestamp)
  : ExamSession :=
  {| session_id := sid; session_user_id := "user-1"; session_status := st;
     started_at := start;
     completed_at := match st with completed => Some (start + 7200) | _ => None end;
     total_questions := 40;
     questions_answered := match st with completed => 40 | _ => 12 end |}.

(** Saturday 2025-12-06 12:00:00 UTC *)
Definition saturday_noon : Timestamp := 1765022400.
(** Sunday 2025-12-07 12:00:00 UTC, in the following UTC week *)
Definition sunday_noon : Timestamp := 1765108800.
(** Wednesday 2025-12-10 09:00:00 UTC *)
Definition wednesday_morning : Timestamp := 1765357200.
(** Thursday 2025-12-11 09:00:00 UTC *)
Definition thursday_morning : Timestamp := 1765443600.
(** Sunday 2025-12-14 00:00:00 UTC *)
Definition next_sunday : Timestamp := 1765670400.

Definition subscriptions : list Subscription := [Scenario.free_record].

End QuotaScenario.

Module ScoringScenario.

Import Scoring.

(** A two-item practice session: keys A and C, answers A and B. *)
Definition questions : list Question :=
  [ {| q_id := "q1"; q_section := quantitative; q_category := geometry;
       correct_answer := "A" |};
    {| q_id := "q2"; q_section := quantitative; q_category := basic_operations;
       correct_answer := "C" |} ].

Definition answers : list QuestionAnswer :=
  [ {| question_id := "q1"; answer := "A"; time_spent_seconds := 30 |};
    {| question_id := "q2"; answer := "B"; time_spent_seconds := 45 |} ].

End ScoringScenario.

(* ================================================================= *)
(** ** Vocabulary of the statements *)

Section WebhookVocabulary.

Import Webhook.

(** [u2] assigns every column that [u1] assigns, and the same status
    and subscription reference. *)
Definition reassigns (u1 u2 : UpdateData) : Prop :=
  upd_stripe_subscription_id u1 = upd_stripe_subscription_id u2 /\
  upd_status u1 = upd_status u2 /\
  (upd_tier u1 <> None -> upd_tier u2 <> None) /\
  (upd_trial_end_at u1 <> None -> upd_trial_end_at u2 <> None) /\
  (upd_current_period_start u1 <> None -> upd_current_period_start u2 <> None) /\
  (upd_current_period_end u1 <> None -> upd_current_period_end u2 <> None) /\
  (upd_canceled_at u1 <> None -> upd_canceled_at u2 <> None) /\
  (upd_updated_at u1 <> None -> upd_updated_at u2 <> None).

(** The WHERE clause gives the same answer on a row before and after
    the update. *)
Definition stable (u : UpdateData) (where_ : Subscription -> bool) : Prop :=
  forall r r1, patch_row u r = Some r1 -> where_ r1 = where_ r.

(** The two shapes the handlers have. *)
Definition update_only (u : UpdateData) (where_ : Subscription -> bool)
  : Handler :=
  fun db =>
    match pg_update u where_ (user_subscriptions db) with
    | Throw error => (Throw (update_failed error), db)
    | Ok t' =>
        (Ok tt, {| user_subscriptions := t'; user_analytics := user_analytics db |})
    end.

Definition select_then_update (customerId : string) (now : Timestamp)
  (u : UpdateData) (where_ : Subscription -> bool) : Handler :=
  fun db =>
    match pg_select_single where_ (user_subscriptions db) with
    | Throw _ => (Throw (user_not_found customerId), db)
    | Ok existingSubscription =>
        match pg_update u where_ (user_subscriptions db) with
        | Throw updateError => (Throw (update_failed updateError), db)
        | Ok t' =>
            (Ok tt,
             {| user_subscriptions := t';
                user_analytics :=
                  pg_upsert_ignore
                    {| ua_user_id := user_id existingSubscription;
                       ua_updated_at := now |}
                    (user_analytics db) |})
        end
    end.



(** The premium half of the record invariant. *)
Definition premium_has_references (r : Subscription) : Prop :=
  tier r = premium ->
  stripe_customer_id r <> None /\ stripe_subscription_id r <> None.

(** The events that take the premium tier away. *)
Definition downgrades (event : StripeEvent) : bool :=
  match ev_payload event with
  | customer_subscription_deleted _ => true
  | customer_subscription_updated s => shouldDowngrade s
  | _ => false
  end.

(** A record with the two columns a handler fills from its clock
    blanked out. *)
Definition without_clock (r : Subscription) : Subscription :=
  {| id := id r;
     user_id := user_id r;
     stripe_customer_id := stripe_customer_id r;
     stripe_subscription_id := stripe_subscription_id r;
     tier := tier r;
     status := status r;
     trial_end_at := trial_end_at r;
     current_period_start := current_period_start r;
     current_period_end := current_period_end r;
     canceled_at := None;
     created_at := created_at r;
     updated_at := 0 |}.

(** Two payloads that differ at most in [canceled_at] and
    [updated_at]. *)
Definition same_but_clock (u1 u2 : UpdateData) : Prop :=
  upd_stripe_subscription_id u1 = upd_stripe_subscription_id u2 /\
  upd_tier u1 = upd_tier u2 /\
  upd_status u1 = upd_status u2 /\
  upd_trial_end_at u1 = upd_trial_end_at u2 /\
  upd_current_period_start u1 = upd_current_period_start u2 /\
  upd_current_period_end u1 = upd_current_period_end u2.

(** Idempotence as the specification words it: the second application
    of an event is a no-op. *)
Definition second_application_is_noop (db : Database) (event : StripeEvent)
  (t1 t2 : Timestamp) : Prop :=
  user_subscriptions (applyLifecycleEvent t2 event (applyLifecycleEvent t1 event db)) =
  user_subscriptions (applyLifecycleEvent t1 event db).

End WebhookVocabulary.

Section ServiceVocabulary.

Import Service.

(** Implicit creation as the specification words it: the lookup hands
    back a free, active record. *)
Definition lookup_yields_default_record (b : Backend) (userId : UUID) : Prop :=
  exists s,
    getSubscription b userId = Ok (Some s) /\ tier s = free /\ status s = active.

(** A store in which nobody has a record yet. *)
Definition empty_backend : Backend := {| rows := []; fault := None |}.



(** The waits in front of the polls [attempt], ..., [attempt + n - 1]. *)
Fixpoint wait_schedule (attempt n : nat) : list Z :=
  match n with
  | O => []
  | S n' =>
      (if (0 <? attempt)%nat then [nth (attempt - 1) delays 0] else [])
      ++ wait_schedule (S attempt) n'
  end.

End ServiceVocabulary.


(* ================================================================= *)
(** ** The subscription service: checkout, cancel, reactivate *)

Module Actions.

Import Service.

(** What [supabase.functions.invoke] hands back: [{data, error}], or a
    rejected promise. *)
Inductive Invoked (A : Type) : Type :=
| invoke_reply (data : option A) (error : bool)
| invoke_rejects.

Arguments invoke_reply {A} data error.
Arguments invoke_rejects {A}.

(** The calls a service method makes, in order. *)
Inductive Call :=
| lookup
| invoke (fn : string) (user_id : UUID) (argument : string).

(** [!s] on an optional string. *)
Definition falsy (s : option string) : bool :=
  match s with
  | None => true
  | Some v => String.eqb v ""
  end.

Record CheckoutData := mkCheckoutData {
  data_clientSecret : option string;
  data_ephemeralKey : option string;
  data_customerId : option string
}.

Record CheckoutSession := mkCheckoutSession {
  clientSecret : string;
  ephemeralKey : string;
  customerId : string
}.

Definition initializePremiumCheckout (premiumPriceId : string)
  (edge : string -> UUID -> string -> Invoked CheckoutData) (userId : UUID)
  : Result JsError CheckoutSession * list Call :=
  let calls := [invoke "create-checkout-session" userId premiumPriceId] in
  match edge "create-checkout-session" userId premiumPriceId with
  | invoke_rejects => (rethrow_or_wrap "CHECKOUT_ERROR" OtherError, calls)
  | invoke_reply _ true => (Throw (ServiceError "CHECKOUT_INIT_FAILED"), calls)
  | invoke_reply None false =>
      (Throw (ServiceError "CHECKOUT_INVALID_RESPONSE"), calls)
  | invoke_reply (Some d) false =>
      match data_clientSecret d, data_ephemeralKey d, data_customerId d with
      | Some cs, Some ek, Some cu =>
          if String.eqb cs "" || String.eqb ek "" || String.eqb cu ""
          then (Throw (ServiceError "CHECKOUT_INVALID_RESPONSE"), calls)
          else (Ok {| clientSecret := cs; ephemeralKey := ek; customerId := cu |},
                calls)
      | _, _, _ => (Throw (ServiceError "CHECKOUT_INVALID_RESPONSE"), calls)
      end
  end.

(** What a call into the payment SDK does. *)
Inductive SdkOutcome :=
| sdk_ok
| sdk_error (code : string)
| sdk_throws.

Inductive SdkCall := initPaymentSheet | presentPaymentSheet_.

Record PaymentError := mkPaymentError {
  code : string;
  message : string
}.

Record PaymentResult := mkPaymentResult {
  success : bool;
  payment_error : option PaymentError
}.

Section PaymentSheet.

(** The private [getArabicPaymentError]: the message shown for an SDK
    error code. *)
Variable getArabicPaymentError : string -> string.

Definition presentPaymentSheet (init present : SdkOutcome)
  : PaymentResult * list SdkCall :=
  let failed code message :=
    {| success := false;
       payment_error := Some {| code := code; message := message |} |} in
  let threw :=
    failed "PAYMENT_ERROR" "حدث خطأ أثناء معالجة الدفع" in
  match init with
  | sdk_throws => (threw, [initPaymentSheet])
  | sdk_error initCode =>
      (failed initCode (getArabicPaymentError initCode), [initPaymentSheet])
  | sdk_ok =>
      let calls := [initPaymentSheet; presentPaymentSheet_] in
      match present with
      | sdk_throws => (threw, calls)
      | sdk_error presentCode =>
          if String.eqb presentCode "Canceled"
          then (failed "PAYMENT_CANCELED" "تم إلغاء عملية الدفع", calls)
          else (failed presentCode (getArabicPaymentError presentCode), calls)
      | sdk_ok => ({| success := true; payment_error := None |}, calls)
      end
  end.

End PaymentSheet.

Section CancelAndReactivate.

(** [world k] is the backend as the [k]-th lookup of a call finds it;
    [edge] is the Edge Function runtime. *)
Variable world : nat -> Backend.
Variable edge : string -> UUID -> string -> Invoked unit.

(** The guard the two methods share: the record must exist and carry a
    subscription reference. *)
Definition subscription_reference (userId : UUID)
  : Result JsError string :=
  subscription <- getSubscription (world 0) userId ;;
  match subscription with
  | None => Throw (ServiceError "NO_SUBSCRIPTION")
  | Some s =>
      if falsy (stripe_subscription_id s)
      then Throw (ServiceError "INVALID_SUBSCRIPTION")
      else match stripe_subscription_id s with
           | Some reference => Ok reference
           | None => Throw (ServiceError "INVALID_SUBSCRIPTION")
           end
  end.

Definition cancelSubscription (userId : UUID)
  : Result JsError unit * list Call :=
  match subscription_reference userId with
  | Throw e => (rethrow_or_wrap "CANCEL_ERROR" e, [lookup])
  | Ok reference =>
      let calls := [lookup; invoke "cancel-subscription" userId reference] in
      match edge "cancel-subscription" userId reference with
      | invoke_rejects => (rethrow_or_wrap "CANCEL_ERROR" OtherError, calls)
      | invoke_reply _ true => (Throw (ServiceError "CANCEL_FAILED"), calls)
      | invoke_reply _ false => (Ok tt, calls)
      end
  end.

Definition reactivateSubscription (userId : UUID)
  : Result JsError Subscription * list Call :=
  match subscription_reference userId with
  | Throw e => (rethrow_or_wrap "REACTIVATE_ERROR" e, [lookup])
  | Ok reference =>
      let calls := [lookup; invoke "reactivate-subscription" userId reference] in
      match edge "reactivate-subscription" userId reference with
      | invoke_rejects => (rethrow_or_wrap "REACTIVATE_ERROR" OtherError, calls)
      | invoke_reply _ true => (Throw (ServiceError "REACTIVATE_FAILED"), calls)
      | invoke_reply _ false =>
          match getSubscription (world 1) userId with
          | Throw e => (rethrow_or_wrap "REACTIVATE_ERROR" e, calls ++ [lookup])
          | Ok None =>
              (Throw (ServiceError "SUBSCRIPTION_NOT_FOUND"), calls ++ [lookup])
          | Ok (Some updatedSubscription) =>
              (Ok updatedSubscription, calls ++ [lookup])
          end
      end
  end.

End CancelAndReactivate.

End Actions.

(* ================================================================= *)
(** ** The subscription hook ([useSubscription]) *)

Module Hook.

(** The state of the hook that the actions write. *)
Record HookState := mkHookState {
  subscription : option Subscription;
  isLoading : bool;
  error : option Service.JsError
}.

Definition isPremium (st : HookState) : bool :=
  match subscription st with
  | Some s =>
      tier_eqb (tier s) premium &&
      (status_eqb (status s) active || status_eqb (status s) trialing)
  | None => false
  end.

(** The effect that loads the subscription when [userId] changes. *)
Definition loadSubscription (b : Service.Backend) (userId : option UUID)
  (st : HookState) : HookState :=
  if Actions.falsy userId then
    {| subscription := None; isLoading := isLoading st; error := error st |}
  else
    match userId with
    | None => {| subscription := None; isLoading := isLoading st; error := error st |}
    | Some uid =>
        match Service.getSubscription b uid with
        | Ok sub => {| subscription := sub; isLoading := false; error := None |}
        | Throw _ => {| subscription := None; isLoading := false; error := None |}
        end
    end.

(** What an action of the hook does, in order. *)
Inductive Step :=
| step_call (c : Actions.Call)
| step_sdk (c : Actions.SdkCall)
| step_poll (e : Service.Effect).

(** The [catch] of every action: a [ServiceError] is kept, anything
    else is replaced by the action's own error. *)
Definition as_service_error (code : string) (e : Service.JsError)
  : Service.JsError :=
  match e with
  | Service.ServiceError _ => e
  | Service.OtherError => Service.ServiceError code
  end.

Section Upgrade.

Variable getArabicPaymentError : string -> string.
Variable premiumPriceId : string.
Variable checkout_edge :
  string -> UUID -> string -> Actions.Invoked Actions.CheckoutData.
Variable init present : Actions.SdkOutcome.
Variable world : nat -> Service.Backend.

(** [catch] and [finally] of [upgradeToPremium]. *)
Definition upgrade_failed (st : HookState) (e : Service.JsError)
  (steps : list Step) : Result Service.JsError unit * HookState * list Step :=
  let serviceError := as_service_error "SUBSCRIPTION_UPGRADE_FAILED" e in
  (Throw serviceError,
   {| subscription := subscription st; isLoading := false;
      error := Some serviceError |},
   steps).

Definition upgradeToPremium (uid : UUID) (st : HookState)
  : Result Service.JsError unit * HookState * list Step :=
  let (checkout, calls) :=
    Actions.initializePremiumCheckout premiumPriceId checkout_edge uid in
  let steps1 := map step_call calls in
  match checkout with
  | Throw e => upgrade_failed st e steps1
  | Ok session =>
      let (result, sdk) :=
        Actions.presentPaymentSheet getArabicPaymentError init present in
      let steps2 := steps1 ++ map step_sdk sdk in
      if negb (Actions.success result) then
        match Actions.payment_error result with
        | Some err =>
            upgrade_failed st (Service.ServiceError (Actions.code err)) steps2
        | None =>
            upgrade_failed st (Service.ServiceError "PAYMENT_FAILED") steps2
        end
      else
        let (refreshed, polls) := Service.refreshSubscriptionStatus world uid in
        let steps3 := steps2 ++ map step_poll polls in
        match refreshed with
        | Throw e => upgrade_failed st e steps3
        | Ok updatedSubscription =>
            (Ok tt,
             {| subscription := Some updatedSubscription; isLoading := false;
                error := None |},
             steps3)
        end
  end.

End Upgrade.

End Hook.

(* ================================================================= *)
(** ** Error classification and retry *)

(** [s.includes(sub)] *)
Fixpoint includes (s sub : string) : bool :=
  String.prefix sub s ||
  match s with
  | EmptyString => false
  | String _ rest => includes rest sub
  end.

(** [a || b] on strings that may be undefined: [a] unless it is
    undefined or empty. *)
Definition or_else (a : option string) (b : string) : string :=
  match a with
  | Some v => if String.eqb v "" then b else v
  | None => b
  end.

Module Gemini.

Inductive GeminiErrorType :=
| QUOTA_EXCEEDED
| TIMEOUT
| INVALID_PROMPT
| CONTENT_FILTER
| API_ERROR
| NETWORK_ERROR
| UNKNOWN.

Record GeminiServiceError := mkGeminiServiceError {
  geminiType : GeminiErrorType;
  code : string;
  message : string;
  arabicMessage : string;
  retryable : bool
}.

Definition isRetryable (e : GeminiServiceError) : bool := retryable e.

Definition createGeminiError (type : GeminiErrorType)
  (message arabicMessage : string) (retryable : bool) : GeminiServiceError :=
  let code :=
    match type with
    | QUOTA_EXCEEDED => "AI_QUOTA_EXCEEDED"
    | TIMEOUT => "AI_TIMEOUT"
    | INVALID_PROMPT => "VALIDATION_ERROR"
    | CONTENT_FILTER => "VALIDATION_ERROR"
    | NETWORK_ERROR => "NETWORK_ERROR"
    | _ => "AI_GENERATION_FAILED"
    end in
  {| geminiType := type; code := code; message := message;
     arabicMessage := arabicMessage; retryable := retryable |}.

(** The caught value, as far as [parseGeminiError] looks at it:
    [error.message], [error.error?.message], [error.status] and
    [error.code]. *)
Record Caught := mkCaught {
  caught_message : option string;
  caught_error_message : option string;
  caught_status : option Z;
  caught_code : option string
}.

Definition status_is (e : Caught) (n : Z) : bool :=
  match caught_status e with
  | Some status => status =? n
  | None => false
  end.

Definition parseGeminiError (error : Caught) : GeminiServiceError :=
  let errorMessage :=
    or_else (caught_message error)
      (or_else (caught_error_message error) "Unknown error") in
  if includes errorMessage "quota" || includes errorMessage "rate limit" ||
     status_is error 429
  then createGeminiError QUOTA_EXCEEDED "Gemini API quota exceeded"
         "تم تجاوز حد استخدام توليد الأسئلة. يرجى المحاولة لاحقاً"
         true
  else if includes errorMessage "timeout" || includes errorMessage "deadline" ||
          match caught_code error with
          | Some c => String.eqb c "ETIMEDOUT"
          | None => false
          end
  then createGeminiError TIMEOUT "Gemini API timeout"
         "انتهت مهلة توليد الأسئلة. يرجى المحاولة مرة أخرى"
         true
  else if includes errorMessage "invalid prompt" ||
          includes errorMessage "invalid request" || status_is error 400
  then createGeminiError INVALID_PROMPT "Invalid prompt for Gemini API"
         "خطأ في إعدادات توليد الأسئلة"
         false
  else if includes errorMessage "content filter" ||
          includes errorMessage "safety" || includes errorMessage "blocked"
  then createGeminiError CONTENT_FILTER "Content filtered by Gemini API"
         "تم رفض المحتوى من قبل نظام السلامة"
         false
  else if includes errorMessage "network" ||
          includes errorMessage "ECONNREFUSED" ||
          includes errorMessage "ENOTFOUND"
  then createGeminiError NETWORK_ERROR "Network error connecting to Gemini API"
         "خطأ في الاتصال بخدمة توليد الأسئلة"
         true
  else if match caught_status error with
          | Some status => 500 <=? status
          | None => false
          end
  then createGeminiError API_ERROR "Gemini API server error"
         "خطأ في خدمة توليد الأسئلة. يرجى المحاولة لاحقاً"
         true
  else createGeminiError UNKNOWN errorMessage
         "حدث خطأ أثناء توليد الأسئلة. يرجى المحاولة مرة أخرى"
         true.

Definition createExamGenerationError (originalError : Caught)
  : GeminiServiceError :=
  let geminiError := parseGeminiError originalError in
  {| geminiType := geminiType geminiError;
     code := "EXAM_GENERATION_FAILED";
     message := "Exam generation failed";
     arabicMessage := arabicMessage geminiError;
     retryable := retryable geminiError |}.

Definition createPracticeGenerationError (originalError : Caught)
  : GeminiServiceError :=
  let geminiError := parseGeminiError originalError in
  {| geminiType := geminiType geminiError;
     code := "PRACTICE_GENERATION_FAILED";
     message := "Practice generation failed";
     arabicMessage := arabicMessage geminiError;
     retryable := retryable geminiError |}.

(** [Math.min] on two numbers. *)
Definition Math_min (a b : Q) : Q := if Qle_bool a b then a else b.

(** [Math.min(1000 * Math.pow(2, attemptNumber - 1), 10000)], for a
    whole [attemptNumber]; the result is a fraction when
    [attemptNumber] is below 1. *)
Definition getRetryDelay (attemptNumber : Z) : Q :=
  let baseDelay := 1000%Q in
  let maxDelay := 10000%Q in
  let delay := (baseDelay * Qpower 2 (attemptNumber - 1))%Q in
  Math_min delay maxDelay.

End Gemini.

Module Network.

Inductive NetworkErrorType :=
| NO_CONNECTION
| TIMEOUT
| SERVER_ERROR
| UNAUTHORIZED
| FORBIDDEN
| NOT_FOUND
| RATE_LIMIT
| UNKNOWN.

Definition type_eqb (a b : NetworkErrorType) : bool :=
  match a, b with
  | NO_CONNECTION, NO_CONNECTION | TIMEOUT, TIMEOUT
  | SERVER_ERROR, SERVER_ERROR | UNAUTHORIZED, UNAUTHORIZED
  | FORBIDDEN, FORBIDDEN | NOT_FOUND, NOT_FOUND
  | RATE_LIMIT, RATE_LIMIT | UNKNOWN, UNKNOWN => true
  | _, _ => false
  end.

Record NetworkError := mkNetworkError {
  type : NetworkErrorType;
  message : string;
  arabicMessage : string;
  statusCode : option Z
}.

(** The caught value, as far as [parseNetworkError] looks at it:
    [error.response] (present or not, with its [status]),
    [error.message] and [error.code]. *)
Record Caught := mkCaught {
  response : option (option Z);
  caught_message : option string;
  caught_code : option string
}.

Definition message_includes (error : Caught) (sub : string) : bool :=
  match caught_message error with
  | Some m => includes m sub
  | None => false
  end.

Definition parseNetworkError (error : Caught) : NetworkError :=
  if match response error with None => true | Some _ => false end &&
     message_includes error "Network request failed"
  then {| type := NO_CONNECTION; message := "No internet connection";
          arabicMessage :=
            "لا يوجد اتصال بالإنترنت. يرجى التحقق من اتصالك.";
          statusCode := None |}
  else if match caught_code error with
          | Some c => String.eqb c "ECONNABORTED"
          | None => false
          end || message_includes error "timeout"
  then {| type := TIMEOUT; message := "Request timeout";
          arabicMessage :=
            "انتهت مهلة الطلب. يرجى المحاولة مرة أخرى.";
          statusCode := None |}
  else
    let statusCode :=
      match response error with
      | Some status => status
      | None => None
      end in
    let known t m a :=
      {| type := t; message := m; arabicMessage := a;
         statusCode := statusCode |} in
    match statusCode with
    | Some 401 =>
        known UNAUTHORIZED "Unauthorized"
          "الجلسة منتهية. يرجى تسجيل الدخول مرة أخرى."
    | Some 403 =>
        known FORBIDDEN "Forbidden"
          "ليس لديك صلاحية للوصول إلى هذا المحتوى."
    | Some 404 =>
        known NOT_FOUND "Not found"
          "المحتوى المطلوب غير موجود."
    | Some 429 =>
        known RATE_LIMIT "Rate limit exceeded"
          "تم تجاوز حد الاستخدام. يرجى المحاولة لاحقاً."
    | Some 500 | Some 502 | Some 503 =>
        known SERVER_ERROR "Server error"
          "خطأ في الخادم. يرجى المحاولة لاحقاً."
    | _ =>
        known UNKNOWN (or_else (caught_message error) "Unknown error")
          "حدث خطأ غير متوقع. يرجى المحاولة مرة أخرى."
    end.

Definition isRetryableError (error : Caught) : bool :=
  let networkError := parseNetworkError error in
  type_eqb (type networkError) TIMEOUT ||
  type_eqb (type networkError) SERVER_ERROR ||
  type_eqb (type networkError) NO_CONNECTION ||
  type_eqb (type networkError) RATE_LIMIT.

(** The configuration, with whole numbers of retries and
    milliseconds. *)
Record RetryConfig := mkRetryConfig {
  maxRetries : Z;
  initialDelayMs : Z;
  maxDelayMs : Z;
  backoffMultiplier : Z
}.

Definition defaultRetryConfig : RetryConfig :=
  {| maxRetries := 3; initialDelayMs := 1000; maxDelayMs := 5000;
     backoffMultiplier := 2 |}.

(** What [retryWithBackoff] does, in order. *)
Inductive Step :=
| call
| sleep (ms : Z).

(** What [retryWithBackoff] throws: the parsed error, or [lastError]
    before anything was assigned to it. *)
Inductive Thrown :=
| thrown (e : NetworkError)
| thrown_undefined.

Fixpoint calls (steps : list Step) : nat :=
  match steps with
  | [] => 0
  | call :: t => S (calls t)
  | sleep _ :: t => calls t
  end.

Fixpoint sleeps (steps : list Step) : list Z :=
  match steps with
  | [] => []
  | sleep ms :: t => ms :: sleeps t
  | call :: t => sleeps t
  end.

Section Retry.

Context {T : Type}.

(** [fn k] is what the [k]-th call of [fn] does (counting from 0). *)
Variable fn : nat -> Result Caught T.
Variable config : RetryConfig.

(** The [for] loop with [remaining] iterations left, the next being
    number [attempt]. [None] is falling out of the loop. *)
Fixpoint retry_loop (remaining attempt : nat) (delay : Z)
  : option (Result Thrown T) * list Step :=
  match remaining with
  | O => (None, [])
  | S remaining' =>
      match fn attempt with
      | Ok v => (Some (Ok v), [call])
      | Throw error =>
          let networkError := parseNetworkError error in
          if type_eqb (type networkError) UNAUTHORIZED ||
             type_eqb (type networkError) FORBIDDEN ||
             type_eqb (type networkError) NOT_FOUND
          then (Some (Throw (thrown networkError)), [call])
          else if Z.of_nat attempt =? maxRetries config
          then (Some (Throw (thrown networkError)), [call])
          else
            let (r, steps) :=
              retry_loop remaining' (S attempt)
                (Z.min (delay * backoffMultiplier config) (maxDelayMs config)) in
            (r, call :: sleep delay :: steps)
      end
  end.

Definition retryWithBackoff : Result Thrown T * list Step :=
  match retry_loop (Z.to_nat (maxRetries config + 1)) 0 (initialDelayMs config) with
  | (Some r, steps) => (r, steps)
  | (None, steps) => (Throw thrown_undefined, steps)
  end.

End Retry.

End Network.

(** A caught value that is a plain [Error] with a message. *)
Definition plain_error (m : string) : Network.Caught :=
  {| Network.response := None; Network.caught_message := Some m;
     Network.caught_code := None |}.

(** A caught value that is an HTTP error reply. *)
Definition http_error (status : Z) : Network.Caught :=
  {| Network.response := Some (Some status);
     Network.caught_message := Some "Request failed";
     Network.caught_code := None |}.

(* ================================================================= *)
(** ** Further database functions ([plan.md] 2, [data-model.md] 2, 6, 8) *)

Module Sql.

(** [has_premium_access] ([data-model.md] 8):
    [EXISTS (SELECT 1 FROM user_subscriptions WHERE user_id = ... AND
    tier = 'premium' AND status IN ('active', 'trialing'))]. *)
Definition has_premium_access (subscriptions : list Subscription)
  (check_user_id : UUID) : bool :=
  existsb (fun r =>
             String.eqb (user_id r) check_user_id &&
             tier_eqb (tier r) premium &&
             (status_eqb (status r) active || status_eqb (status r) trialing))
          subscriptions.

(** Division of integers rounded to the nearest integer, ties away from
    zero, as [ROUND] and the casts to [DECIMAL(p,2)] round; [d > 0]. *)
Definition round_div (n d : Z) : Z :=
  if 0 <=? n then (2 * n + d) / (2 * d) else - ((2 * - n + d) / (2 * d)).

Definition INT4_MIN : Z := -2147483648.
Definition INT4_MAX : Z := 2147483647.

Definition fits_int4 (n : Z) : bool := (INT4_MIN <=? n) && (n <=? INT4_MAX).

(** [SUM(...)] over a nullable integer column: NULLs are skipped, the
    sum over no value is NULL. *)
Fixpoint sql_sum (l : list (option Z)) : option Z :=
  match l with
  | [] => None
  | None :: l' => sql_sum l'
  | Some x :: l' =>
      match sql_sum l' with
      | None => Some x
      | Some y => Some (x + y)
      end
  end.

Definition coalesce (v : option Z) (default : Z) : Z :=
  match v with Some x => x | None => default end.

End Sql.

Module Practice.

Inductive PracticeSessionStatus := in_progress | completed | abandoned.

(** The columns of [practice_sessions] that [calculate_practice_hours]
    reads. *)
Record PracticeSession := mkPracticeSession {
  practice_id : UUID;
  practice_user_id : UUID;
  practice_status : PracticeSessionStatus;
  time_spent_seconds : option Z
}.

Definition is_completed (s : PracticeSessionStatus) : bool :=
  match s with completed => true | _ => false end.

Definition counted (for_user_id : UUID) (p : PracticeSession) : bool :=
  String.eqb (practice_user_id p) for_user_id && is_completed (practice_status p).

(** [COALESCE(SUM(time_spent_seconds), 0)] over the user's completed
    sessions. *)
Definition total_seconds (practice_sessions : list PracticeSession)
  (for_user_id : UUID) : Z :=
  Sql.coalesce
    (Sql.sql_sum (map time_spent_seconds
                      (filter (counted for_user_id) practice_sessions)))
    0.

(** [calculate_practice_hours]: the hours, in hundredths (the result is
    a [DECIMAL(10,2)]). [None] is the error raised when the sum does
    not fit the [INTEGER] variable it is selected into. *)
Definition calculate_practice_hours (practice_sessions : list PracticeSession)
  (for_user_id : UUID) : option Z :=
  let total := total_seconds practice_sessions for_user_id in
  if Sql.fits_int4 total then Some (Sql.round_div (total * 100) 3600) else None.

End Practice.

Module Analytics.

(** One row of [user_analytics]; scores and hours in hundredths. *)
Record AnalyticsRow := mkAnalyticsRow {
  analytics_user_id : UUID;
  last_exam_verbal_score : option Z;
  last_exam_quantitative_score : option Z;
  last_exam_overall_average : option Z;
  total_exams_completed : option Z;
  total_practices_completed : option Z;
  total_practice_hours : option Z;
  strongest_category : option string;
  weakest_category : option string;
  last_activity_at : option Timestamp;
  analytics_updated_at : option Timestamp
}.

(** A row of [exam_results] as inserted: the two section scores. *)
Record ExamResultInsert := mkExamResultInsert {
  result_user_id : UUID;
  verbal_score : Z;
  quantitative_score : Z
}.

(** [overall_average DECIMAL(5,2) GENERATED ALWAYS AS
    ((verbal_score + quantitative_score) / 2) STORED] *)
Definition overall_average (r : ExamResultInsert) : Z :=
  Sql.round_div (verbal_score r + quantitative_score r) 2.

(** [CHECK (verbal_score BETWEEN 0 AND 100)] and the same for the
    quantitative score. *)
Definition checks_pass (r : ExamResultInsert) : bool :=
  (0 <=? verbal_score r) && (verbal_score r <=? 10000) &&
  (0 <=? quantitative_score r) && (quantitative_score r <=? 10000).

(** The row [NEW] of the trigger, with [TG_TABLE_NAME]. *)
Inductive Inserted :=
| into_exam_results (r : ExamResultInsert)
| into_practice_results (user : UUID).

Definition inserted_user (i : Inserted) : UUID :=
  match i with
  | into_exam_results r => result_user_id r
  | into_practice_results user => user
  end.

(** [counter + 1] on a nullable [INTEGER]: NULL stays NULL; [None] is
    the overflow error. *)
Definition increment (counter : option Z) : option (option Z) :=
  match counter with
  | None => Some None
  | Some n => if Sql.fits_int4 (n + 1) then Some (Some (n + 1)) else None
  end.

Definition update_row (now : Timestamp) (i : Inserted) (a : AnalyticsRow)
  : option AnalyticsRow :=
  match i with
  | into_exam_results r =>
      match increment (total_exams_completed a) with
      | None => None
      | Some n =>
          Some {| analytics_user_id := analytics_user_id a;
                  last_exam_verbal_score := Some (verbal_score r);
                  last_exam_quantitative_score := Some (quantitative_score r);
                  last_exam_overall_average := Some (overall_average r);
                  total_exams_completed := n;
                  total_practices_completed := total_practices_completed a;
                  total_practice_hours := total_practice_hours a;
                  strongest_category := strongest_category a;
                  weakest_category := weakest_category a;
                  last_activity_at := Some now;
                  analytics_updated_at := Some now |}
      end
  | into_practice_results _ =>
      match increment (total_practices_completed a) with
      | None => None
      | Some n =>
          Some {| analytics_user_id := analytics_user_id a;
                  last_exam_verbal_score := last_exam_verbal_score a;
                  last_exam_quantitative_score := last_exam_quantitative_score a;
                  last_exam_overall_average := last_exam_overall_average a;
                  total_exams_completed := total_exams_completed a;
                  total_practices_completed := n;
                  total_practice_hours := total_practice_hours a;
                  strongest_category := strongest_category a;
                  weakest_category := weakest_category a;
                  last_activity_at := Some now;
                  analytics_updated_at := Some now |}
      end
  end.

(** [update_user_analytics()], the AFTER INSERT trigger of
    [exam_results] and [practice_results]: the UPDATE of the rows of
    [NEW.user_id]. [None] is an error, which aborts the insert. *)
Fixpoint update_user_analytics (now : Timestamp) (i : Inserted)
  (user_analytics : list AnalyticsRow) : option (list AnalyticsRow) :=
  match user_analytics with
  | [] => Some []
  | a :: rest =>
      match
        (if String.eqb (analytics_user_id a) (inserted_user i)
         then update_row now i a else Some a),
        update_user_analytics now i rest
      with
      | Some a', Some rest' => Some (a' :: rest')
      | _, _ => None
      end
  end.

(** A sequence of inserts, each at its own time. *)
Fixpoint insert_all (inserts : list (Timestamp * Inserted))
  (user_analytics : list AnalyticsRow) : option (list AnalyticsRow) :=
  match inserts with
  | [] => Some user_analytics
  | (now, i) :: rest =>
      match update_user_analytics now i user_analytics with
      | Some t => insert_all rest t
      | None => None
      end
  end.

End Analytics.

(* ================================================================= *)
(** ** Vocabulary of the further statements *)

Section FurtherWebhookVocabulary.

Import Webhook.

(** The columns no handler assigns. *)
Definition record_identity (r : Subscription)
  : UUID * UUID * option string * Timestamp :=
  (id r, user_id r, stripe_customer_id r, created_at r).

(** The rows the WHERE clause of the event's handler selects. *)
Definition addressed (event : StripeEvent) (r : Subscription) : bool :=
  match ev_payload event with
  | customer_subscription_created s =>
      column_eq (stripe_customer_id r) (expandable_id (sub_customer s))
  | customer_subscription_updated s
  | customer_subscription_deleted s =>
      column_eq (stripe_subscription_id r) (sub_id s)
  | invoice_payment_failed i =>
      match option_map expandable_id (inv_subscription i) with
      | Some subscriptionId => column_eq (stripe_subscription_id r) subscriptionId
      | None => false
      end
  | unhandled _ => false
  end.

(** What the handler of an event that selects no row answers. *)
Definition outcome_without_record (event : StripeEvent)
  : Result HandlerError unit :=
  match ev_payload event with
  | customer_subscription_created s =>
      Throw (user_not_found (expandable_id (sub_customer s)))
  | _ => Ok tt
  end.

(** The row a [payment_failed] event leaves behind. *)
Definition past_due_row (now : Timestamp) (r : Subscription) : Subscription :=
  {| id := id r;
     user_id := user_id r;
     stripe_customer_id := stripe_customer_id r;
     stripe_subscription_id := stripe_subscription_id r;
     tier := tier r;
     status := past_due;
     trial_end_at := trial_end_at r;
     current_period_start := current_period_start r;
     current_period_end := current_period_end r;
     canceled_at := canceled_at r;
     created_at := created_at r;
     updated_at := now |}.

End FurtherWebhookVocabulary.

Module AnalyticsScenario.

Import Analytics.

Definition row_before : AnalyticsRow :=
  {| analytics_user_id := "user-1";
     last_exam_verbal_score := None;
     last_exam_quantitative_score := None;
     last_exam_overall_average := None;
     total_exams_completed := Some 1;
     total_practices_completed := Some 0;
     total_practice_hours := Some 0;
     strongest_category := None; weakest_category := None;
     last_activity_at := None;
     analytics_updated_at := None |}.

(** An exam result, then a practice result, of the same user. *)
Definition two_inserts : list (Timestamp * Inserted) :=
  [(1765108700,
    into_exam_results
      {| result_user_id := "user-1"; verbal_score := 8000;
         quantitative_score := 7000 |});
   (1765108800, into_practice_results "user-1")].

Definition row_after : AnalyticsRow :=
  {| analytics_user_id := "user-1";
     last_exam_verbal_score := Some 8000;
     last_exam_quantitative_score := Some 7000;
     last_exam_overall_average := Some 7500;
     total_exams_completed := Some 2;
     total_practices_completed := Some 1;
     total_practice_hours := Some 0;
     strongest_category := None; weakest_category := None;
     last_activity_at := Some 1765108800;
     analytics_updated_at := Some 1765108800 |}.

End AnalyticsScenario.

Section FurtherSqlVocabulary.

Import Analytics.

(** How many of the inserts are exam results of the user. *)
Definition exam_results_of (user : UUID) (inserts : list (Timestamp * Inserted))
  : Z :=
  Z.of_nat
    (List.length
       (filter (fun ti => match snd ti with
                          | into_exam_results r => String.eqb (result_user_id r) user
                          | into_practice_results _ => false
                          end) inserts)).

(** How many of the inserts are practice results of the user. *)
Definition practice_results_of (user : UUID)
  (inserts : list (Timestamp * Inserted)) : Z :=
  Z.of_nat
    (List.length
       (filter (fun ti => match snd ti with
                          | into_exam_results _ => false
                          | into_practice_results u => String.eqb u user
                          end) inserts)).

End FurtherSqlVocabulary.

Section RetryVocabulary.

Import Network.

(** The errors after which [retryWithBackoff] gives up at once. *)
Definition fatal (c : Caught) : Prop :=
  In (type (parseNetworkError c)) [UNAUTHORIZED; FORBIDDEN; NOT_FOUND].

(** A function that fails once with a server error and then
    succeeds. *)
Definition flaky_once (k : nat) : Result Caught unit :=
  match k with
  | O => Throw (http_error 503)
  | S _ => Ok tt
  end.

End RetryVocabulary.

(* ================================================================= *)
(** * Properties *)

(** ** Tables and updates *)

Section UpdateFacts.

Import Webhook.

Lemma column_eq_true col v : column_eq col v = true <-> col = Some v.
Proof.
  destruct col as [c|]; simpl.
  - rewrite String.eqb_eq. split; congruence.
  - split; discriminate.
Qed.

Lemma assign_twice {A} (n1 n2 : option A) (old : A) :
  (n1 <> None -> n2 <> None) ->
  assign n2 (assign n1 old) = assign n2 old.
Proof.
  destruct n1, n2; simpl; intros H; try reflexivity.
  exfalso. apply H; [discriminate | reflexivity].
Qed.

Lemma patch_row_again u1 u2 r r1 :
  reassigns u1 u2 ->
  patch_row u1 r = Some r1 ->
  patch_row u2 r1 = patch_row u2 r.
Proof.
  intros (Hid & Hst & Ht & Hte & Hps & Hpe & Hc & Hu) H1.
  unfold patch_row in *. rewrite <- Hst, <- Hid.
  destruct (upd_status u1) as [s|].
  - destruct (status_column s) as [st|]; [|discriminate].
    injection H1 as <-. simpl.
    rewrite !assign_twice by assumption.
    destruct (upd_stripe_subscription_id u1); reflexivity.
  - injection H1 as <-. simpl.
    rewrite !assign_twice by assumption.
    destruct (upd_stripe_subscription_id u1); reflexivity.
Qed.

Lemma patch_row_subscription_id u1 u2 r r1 r2 :
  upd_stripe_subscription_id u1 = upd_stripe_subscription_id u2 ->
  patch_row u1 r = Some r1 -> patch_row u2 r = Some r2 ->
  stripe_subscription_id r1 = stripe_subscription_id r2.
Proof.
  intros Hid H1 H2. unfold patch_row in *.
  destruct (match upd_status u1 with Some s => status_column s | None => Some (status r) end);
    [|discriminate].
  destruct (match upd_status u2 with Some s => status_column s | None => Some (status r) end);
    [|discriminate].
  injection H1 as <-. injection H2 as <-. simpl. now rewrite Hid.
Qed.

Lemma patch_rows_again u1 u2 where_ t t1 :
  reassigns u1 u2 -> stable u1 where_ ->
  patch_rows u1 where_ t = Some t1 ->
  patch_rows u2 where_ t1 = patch_rows u2 where_ t.
Proof.
  intros Hre Hst. revert t1.
  induction t as [|r t IH]; intros t1 H; simpl in H.
  - injection H as <-. reflexivity.
  - destruct (where_ r) eqn:Hw.
    + destruct (patch_row u1 r) as [r1|] eqn:Hp; [|discriminate].
      destruct (patch_rows u1 where_ t) as [t'|]; [|discriminate].
      injection H as <-. simpl.
      rewrite (Hst _ _ Hp), Hw, (patch_row_again _ _ _ _ Hre Hp).
      now rewrite (IH _ eq_refl).
    + destruct (patch_rows u1 where_ t) as [t'|]; [|discriminate].
      injection H as <-. simpl. rewrite Hw.
      now rewrite (IH _ eq_refl).
Qed.

Lemma patch_rows_ids u1 u2 where_ t t1 t2 :
  upd_stripe_subscription_id u1 = upd_stripe_subscription_id u2 ->
  patch_rows u1 where_ t = Some t1 ->
  patch_rows u2 where_ t = Some t2 ->
  subscription_ids t1 = subscription_ids t2.
Proof.
  intros Hid. revert t1 t2.
  induction t as [|r t IH]; intros t1 t2 H1 H2; simpl in *.
  - injection H1 as <-. injection H2 as <-. reflexivity.
  - destruct (patch_rows u1 where_ t) as [t1'|];
      [|destruct (if where_ r then patch_row u1 r else Some r); discriminate].
    destruct (patch_rows u2 where_ t) as [t2'|];
      [|destruct (if where_ r then patch_row u2 r else Some r); discriminate].
    specialize (IH _ _ eq_refl eq_refl).
    destruct (where_ r).
    + destruct (patch_row u1 r) as [r1|] eqn:Hp1; [|discriminate].
      destruct (patch_row u2 r) as [r2|] eqn:Hp2; [|discriminate].
      injection H1 as <-. injection H2 as <-. simpl.
      rewrite (patch_row_subscription_id _ _ _ _ _ Hid Hp1 Hp2), IH.
      reflexivity.
    + injection H1 as <-. injection H2 as <-. simpl. now rewrite IH.
Qed.

(** Running an update whose payload differs from an earlier one only
    in the values it writes behaves, on the updated table, as it does
    on the original one. *)
Lemma pg_update_again u1 u2 where_ t t1 :
  reassigns u1 u2 -> stable u1 where_ ->
  pg_update u1 where_ t = Ok t1 ->
  pg_update u2 where_ t1 = pg_update u2 where_ t.
Proof.
  intros Hre Hst H. unfold pg_update in *.
  destruct (patch_rows u1 where_ t) as [t1'|] eqn:Hp; [|discriminate].
  destruct (distinct (subscription_ids t1')) eqn:Hd; [|discriminate].
  injection H as <-.
  rewrite (patch_rows_again _ _ _ _ _ Hre Hst Hp).
  reflexivity.
Qed.

Lemma patch_rows_filter_length u where_ t t1 :
  stable u where_ ->
  patch_rows u where_ t = Some t1 ->
  List.length (filter where_ t1) = List.length (filter where_ t).
Proof.
  intros Hst. revert t1.
  induction t as [|r t IH]; intros t1 H; simpl in H.
  - injection H as <-. reflexivity.
  - destruct (where_ r) eqn:Hw.
    + destruct (patch_row u r) as [r1|] eqn:Hp; [|discriminate].
      destruct (patch_rows u where_ t) as [t'|]; [|discriminate].
      injection H as <-. simpl.
      rewrite (Hst _ _ Hp), Hw. simpl. now rewrite (IH _ eq_refl).
    + destruct (patch_rows u where_ t) as [t'|]; [|discriminate].
      injection H as <-. simpl. rewrite Hw. now apply IH.
Qed.

Lemma pg_select_single_length where_ t t' :
  List.length (filter where_ t') = List.length (filter where_ t) ->
  is_ok (pg_select_single where_ t') = is_ok (pg_select_single where_ t).
Proof.
  unfold pg_select_single. intros H.
  destruct (filter where_ t) as [|a [|b l]], (filter where_ t') as [|a' [|b' l']];
    simpl in *; congruence.
Qed.

(** A WHERE clause on a column the payload does not assign. *)
Lemma stable_customer u v :
  stable u (fun r => column_eq (stripe_customer_id r) v).
Proof.
  intros r r1 H. unfold patch_row in H.
  destruct (match upd_status u with Some s => status_column s | None => Some (status r) end);
    [|discriminate].
  injection H as <-. reflexivity.
Qed.

Lemma stable_subscription u v :
  upd_stripe_subscription_id u = None ->
  stable u (fun r => column_eq (stripe_subscription_id r) v).
Proof.
  intros Hn r r1 H. unfold patch_row in H. rewrite Hn in H.
  destruct (match upd_status u with Some s => status_column s | None => Some (status r) end);
    [|discriminate].
  injection H as <-. reflexivity.
Qed.

End UpdateFacts.

(* ================================================================= *)
(** ** The webhook consumer: ordering *)

Section Ordering.

Import Webhook.

(** The transitions of the state machine on the sample store. *)
Example created_grants_premium :
  map (fun r => (tier r, status r, stripe_subscription_id r))
      (user_subscriptions
         (applyLifecycleEvent 1765022500000 Scenario.created_trialing
            Scenario.free_store))
  = [(premium, trialing, Some "sub_1")].
Proof. reflexivity. Qed.

Example stale_update_is_applied :
  map (fun r => (tier r, status r))
      (user_subscriptions
         (applyLifecycleEvent 1765022501000 Scenario.older_incomplete
            (applyLifecycleEvent 1765022500000 Scenario.created_trialing
               Scenario.free_store)))
  = [(premium, incomplete)].
Proof. reflexivity. Qed.

Example payment_trouble_keeps_tier :
  map (fun r => (tier r, status r))
      (user_subscriptions
         (applyLifecycleEvent 1765108801000 Scenario.updated_past_due
            Scenario.premium_store))
  = [(premium, past_due)].
Proof. reflexivity. Qed.

(** A status the table cannot hold: the update is refused and the
    record stays as it was. *)
Example unpaid_is_refused :
  dispatch 1765108801000
    {| ev_id := "evt_6"; ev_created := 1765108800;
       ev_payload := customer_subscription_updated (Scenario.stripe_sub st_unpaid) |}
    Scenario.premium_store
  = (Throw (update_failed check_violation), Scenario.premium_store).
Proof. reflexivity. Qed.

Lemma patch_rows_map u where_ (f : Subscription -> Subscription) t :
  (forall r, where_ r = true -> patch_row u r = Some (f r)) ->
  patch_rows u where_ t = Some (map (fun r => if where_ r then f r else r) t).
Proof.
  intros Hf. induction t as [|r t IH]; simpl.
  - reflexivity.
  - rewrite IH. destruct (where_ r) eqn:Hw.
    + now rewrite (Hf r Hw).
    + reflexivity.
Qed.

Lemma subscription_ids_map (f : Subscription -> Subscription) t :
  (forall r, stripe_subscription_id (f r) = stripe_subscription_id r) ->
  subscription_ids (map f t) = subscription_ids t.
Proof.
  intros Hf. induction t as [|r t IH]; simpl.
  - reflexivity.
  - now rewrite Hf, IH.
Qed.




End Ordering.

(* ================================================================= *)
(** ** The webhook consumer: redelivery *)

Section Redelivery.

Import Webhook.

(** C2, as stated, fails: a [deleted] event delivered a second time, one
    second after the first, rewrites [canceled_at] and [updated_at]. *)
Lemma redelivery_rewrites_timestamps :
  ~ second_application_is_noop Scenario.premium_store Scenario.deleted_event
      1765108801000 1765108802000.
Proof.
  unfold second_application_is_noop. vm_compute. discriminate.
Qed.

Lemma pg_update_select u where_ t t1 :
  stable u where_ ->
  pg_update u where_ t = Ok t1 ->
  is_ok (pg_select_single where_ t1) = is_ok (pg_select_single where_ t).
Proof.
  intros Hst H. unfold pg_update in H.
  destruct (patch_rows u where_ t) as [t'|] eqn:Hp; [|discriminate].
  destruct (distinct (subscription_ids t')); [|discriminate].
  injection H as <-.
  apply pg_select_single_length.
  exact (patch_rows_filter_length _ _ _ _ Hst Hp).
Qed.

Ltac reassigns_trivial :=
  unfold reassigns; simpl; repeat split; intros; try discriminate; auto.

(** Whether an update goes through depends on the status and the
    subscription reference it writes, not on the other values. *)
Lemma patch_rows_defined u1 u2 where_ t :
  upd_status u1 = upd_status u2 ->
  patch_rows u1 where_ t = None -> patch_rows u2 where_ t = None.
Proof.
  intros Hst. induction t as [|r t IH]; simpl; [discriminate|].
  intros H.
  assert (Hrow : patch_row u1 r = None -> patch_row u2 r = None).
  { unfold patch_row. rewrite Hst.
    destruct (match upd_status u2 with
              | Some s => status_column s
              | None => Some (status r)
              end); [discriminate | reflexivity]. }
  destruct (where_ r).
  - destruct (patch_row u1 r) as [r1|].
    + destruct (patch_rows u1 where_ t); [discriminate|].
      rewrite (IH eq_refl). now destruct (patch_row u2 r).
    + now rewrite Hrow.
  - destruct (patch_rows u1 where_ t); [discriminate|].
    now rewrite (IH eq_refl).
Qed.

Lemma pg_update_ok_transfer u1 u2 where_ t :
  upd_status u1 = upd_status u2 ->
  upd_stripe_subscription_id u1 = upd_stripe_subscription_id u2 ->
  is_ok (pg_update u1 where_ t) = is_ok (pg_update u2 where_ t).
Proof.
  intros Hst Hid. unfold pg_update.
  destruct (patch_rows u1 where_ t) as [p1|] eqn:H1,
           (patch_rows u2 where_ t) as [p2|] eqn:H2.
  - rewrite (patch_rows_ids _ _ _ _ _ _ Hid H1 H2).
    now destruct (distinct (subscription_ids p2)).
  - rewrite (patch_rows_defined u2 u1 where_ t (eq_sym Hst) H2) in H1.
    discriminate.
  - rewrite (patch_rows_defined u1 u2 where_ t Hst H1) in H2. discriminate.
  - reflexivity.
Qed.

(** One shape covers the four handlers: an update whose payload is a
    function of the clock. *)
Lemma update_twice (u : Timestamp -> UpdateData) where_ t1 t2 t ta :
  reassigns (u t1) (u t2) -> stable (u t1) where_ ->
  upd_status (u t1) = upd_status (u t2) ->
  pg_update (u t1) where_ t = Ok ta ->
  exists tb, pg_update (u t2) where_ ta = Ok tb /\
             pg_update (u t2) where_ t = Ok tb.
Proof.
  intros Hre Hst Hstatus Hup.
  rewrite (pg_update_again _ _ _ _ _ Hre Hst Hup).
  pose proof (pg_update_ok_transfer (u t1) (u t2) where_ t Hstatus
                (proj1 Hre)) as Hok.
  rewrite Hup in Hok.
  destruct (pg_update (u t2) where_ t) as [tb|e]; [|discriminate Hok].
  now exists tb.
Qed.

Lemma update_only_twice (u : Timestamp -> UpdateData) where_ t1 t2 db :
  reassigns (u t1) (u t2) -> stable (u t1) where_ ->
  upd_status (u t1) = upd_status (u t2) ->
  user_subscriptions
    (snd (update_only (u t2) where_ (snd (update_only (u t1) where_ db)))) =
  user_subscriptions (snd (update_only (u t2) where_ db)).
Proof.
  intros Hre Hst Hstatus. unfold update_only at 2.
  destruct (pg_update (u t1) where_ (user_subscriptions db)) as [ta|ea] eqn:Hup;
    [|reflexivity].
  destruct (update_twice u where_ t1 t2 _ _ Hre Hst Hstatus Hup)
    as (tb & Ha & Hb).
  unfold update_only. cbn [snd user_subscriptions].
  rewrite Ha, Hb. reflexivity.
Qed.

Lemma select_then_update_twice
  (u : Timestamp -> UpdateData) where_ cid t1 t2 db :
  reassigns (u t1) (u t2) -> stable (u t1) where_ ->
  upd_status (u t1) = upd_status (u t2) ->
  user_subscriptions
    (snd (select_then_update cid t2 (u t2) where_
            (snd (select_then_update cid t1 (u t1) where_ db)))) =
  user_subscriptions (snd (select_then_update cid t2 (u t2) where_ db)).
Proof.
  intros Hre Hst Hstatus. unfold select_then_update at 2.
  destruct (pg_select_single where_ (user_subscriptions db)) as [r0|e0] eqn:Hsel;
    [|reflexivity].
  destruct (pg_update (u t1) where_ (user_subscriptions db)) as [ta|ea] eqn:Hup;
    [|reflexivity].
  pose proof (pg_update_select _ _ _ _ Hst Hup) as Hok.
  rewrite Hsel in Hok.
  destruct (update_twice u where_ t1 t2 _ _ Hre Hst Hstatus Hup)
    as (tb & Ha & Hb).
  unfold select_then_update. cbn [snd user_subscriptions].
  rewrite Hsel, Ha, Hb.
  destruct (pg_select_single where_ ta) as [r1|e1]; [|discriminate Hok].
  reflexivity.
Qed.

Lemma created_twice t1 t2 s db :
  user_subscriptions
    (snd (handleSubscriptionCreated t2 s (snd (handleSubscriptionCreated t1 s db)))) =
  user_subscriptions (snd (handleSubscriptionCreated t2 s db)).
Proof.
  refine (select_then_update_twice
    (fun now =>
       {| upd_stripe_subscription_id := Some (sub_id s);
          upd_tier := Some premium;
          upd_status := Some (sub_status s);
          upd_trial_end_at := Some (date_of_seconds_or_null (sub_trial_end s));
          upd_current_period_start :=
            Some (Some (sub_current_period_start s * 1000));
          upd_current_period_end :=
            Some (Some (sub_current_period_end s * 1000));
          upd_canceled_at := None;
          upd_updated_at := Some now |})
    (fun r => column_eq (stripe_customer_id r) (expandable_id (sub_customer s)))
    (expandable_id (sub_customer s)) t1 t2 db _ _ _);
    [reassigns_trivial | apply stable_customer | reflexivity].
Qed.

Lemma updated_twice (t1 t2 : Timestamp) s db :
  user_subscriptions
    (snd (handleSubscriptionUpdated t2 s (snd (handleSubscriptionUpdated t1 s db)))) =
  user_subscriptions (snd (handleSubscriptionUpdated t2 s db)).
Proof.
  refine (update_only_twice
    (fun now =>
       {| upd_stripe_subscription_id := None;
          upd_tier := if shouldDowngrade s then Some free else None;
          upd_status := Some (sub_status s);
          upd_trial_end_at := None;
          upd_current_period_start := None;
          upd_current_period_end := None;
          upd_canceled_at :=
            Some (date_of_seconds_or_null (sub_canceled_at s));
          upd_updated_at := Some now |})
    (fun r => column_eq (stripe_subscription_id r) (sub_id s)) t1 t2 db
    _ _ _);
    [reassigns_trivial | now apply stable_subscription | reflexivity].
Qed.

Lemma deleted_twice (t1 t2 : Timestamp) s db :
  user_subscriptions
    (snd (handleSubscriptionDeleted t2 s (snd (handleSubscriptionDeleted t1 s db)))) =
  user_subscriptions (snd (handleSubscriptionDeleted t2 s db)).
Proof.
  refine (update_only_twice
    (fun now =>
       {| upd_stripe_subscription_id := None;
          upd_tier := Some free;
          upd_status := Some st_canceled;
          upd_trial_end_at := None;
          upd_current_period_start := None;
          upd_current_period_end := None;
          upd_canceled_at := Some (Some now);
          upd_updated_at := Some now |})
    (fun r => column_eq (stripe_subscription_id r) (sub_id s)) t1 t2 db
    _ _ _);
    [reassigns_trivial | now apply stable_subscription | reflexivity].
Qed.

Lemma payment_failed_twice (t1 t2 : Timestamp) i db :
  user_subscriptions
    (snd (handlePaymentFailed t2 i (snd (handlePaymentFailed t1 i db)))) =
  user_subscriptions (snd (handlePaymentFailed t2 i db)).
Proof.
  unfold handlePaymentFailed.
  destruct (option_map expandable_id (inv_subscription i)) as [sid|];
    [|reflexivity].
  destruct (String.eqb sid ""); [reflexivity|].
  refine (update_only_twice
    (fun now =>
       {| upd_stripe_subscription_id := None;
          upd_tier := None;
          upd_status := Some st_past_due;
          upd_trial_end_at := None;
          upd_current_period_start := None;
          upd_current_period_end := None;
          upd_canceled_at := None;
          upd_updated_at := Some now |})
    (fun r => column_eq (stripe_subscription_id r) sid) t1 t2 db
    _ _ _);
    [reassigns_trivial | now apply stable_subscription | reflexivity].
Qed.

Lemma patch_row_clock u1 u2 r r1 r2 :
  same_but_clock u1 u2 ->
  patch_row u1 r = Some r1 -> patch_row u2 r = Some r2 ->
  without_clock r1 = without_clock r2.
Proof.
  intros (Hid & Ht & Hst & Hte & Hps & Hpe) H1 H2.
  unfold patch_row in *. rewrite <- Hst in H2.
  destruct (match upd_status u1 with
            | Some s => status_column s
            | None => Some (status r)
            end); [|discriminate].
  injection H1 as <-. injection H2 as <-.
  unfold without_clock. simpl. now rewrite Hid, Ht, Hte, Hps, Hpe.
Qed.

Lemma patch_rows_clock u1 u2 where_ t t1 t2 :
  same_but_clock u1 u2 ->
  patch_rows u1 where_ t = Some t1 -> patch_rows u2 where_ t = Some t2 ->
  map without_clock t1 = map without_clock t2.
Proof.
  intros Hsame. revert t1 t2.
  induction t as [|r t IH]; intros t1 t2 H1 H2; simpl in *.
  - injection H1 as <-. injection H2 as <-. reflexivity.
  - destruct (patch_rows u1 where_ t) as [t1'|];
      [|destruct (if where_ r then patch_row u1 r else Some r); discriminate].
    destruct (patch_rows u2 where_ t) as [t2'|];
      [|destruct (if where_ r then patch_row u2 r else Some r); discriminate].
    specialize (IH _ _ eq_refl eq_refl).
    destruct (where_ r).
    + destruct (patch_row u1 r) as [r1|] eqn:Hp1; [|discriminate].
      destruct (patch_row u2 r) as [r2|] eqn:Hp2; [|discriminate].
      injection H1 as <-. injection H2 as <-. simpl.
      now rewrite (patch_row_clock _ _ _ _ _ Hsame Hp1 Hp2), IH.
    + injection H1 as <-. injection H2 as <-. simpl. now rewrite IH.
Qed.

(** The same update at two clock readings: both go through or both
    are refused, and the tables they leave agree up to the clock
    columns. *)
Lemma pg_update_clock u1 u2 where_ t :
  same_but_clock u1 u2 ->
  match pg_update u1 where_ t, pg_update u2 where_ t with
  | Ok ta, Ok tb => map without_clock ta = map without_clock tb
  | Throw _, Throw _ => True
  | _, _ => False
  end.
Proof.
  intros Hsame.
  pose proof (pg_update_ok_transfer u1 u2 where_ t
                (proj1 (proj2 (proj2 Hsame))) (proj1 Hsame)) as Hok.
  destruct (pg_update u1 where_ t) as [ta|ea] eqn:Ha,
           (pg_update u2 where_ t) as [tb|eb] eqn:Hb;
    try discriminate Hok; [|exact I].
  unfold pg_update in Ha, Hb.
  destruct (patch_rows u1 where_ t) as [pa|] eqn:Hpa; [|discriminate].
  destruct (patch_rows u2 where_ t) as [pb|] eqn:Hpb; [|discriminate].
  destruct (distinct (subscription_ids pa)); [|discriminate].
  destruct (distinct (subscription_ids pb)); [|discriminate].
  injection Ha as <-. injection Hb as <-.
  exact (patch_rows_clock _ _ _ _ _ _ Hsame Hpa Hpb).
Qed.

Lemma update_only_clock (u : Timestamp -> UpdateData) where_ t1 t2 db :
  same_but_clock (u t1) (u t2) ->
  map without_clock (user_subscriptions (snd (update_only (u t1) where_ db))) =
  map without_clock (user_subscriptions (snd (update_only (u t2) where_ db))).
Proof.
  intros Hsame. unfold update_only.
  pose proof (pg_update_clock _ _ where_ (user_subscriptions db) Hsame) as H.
  destruct (pg_update (u t1) where_ (user_subscriptions db)),
           (pg_update (u t2) where_ (user_subscriptions db));
    try contradiction; [exact H | reflexivity].
Qed.

Lemma select_then_update_clock
  (u : Timestamp -> UpdateData) where_ cid t1 t2 db :
  same_but_clock (u t1) (u t2) ->
  map without_clock
    (user_subscriptions (snd (select_then_update cid t1 (u t1) where_ db))) =
  map without_clock
    (user_subscriptions (snd (select_then_update cid t2 (u t2) where_ db))).
Proof.
  intros Hsame. unfold select_then_update.
  destruct (pg_select_single where_ (user_subscriptions db)); [|reflexivity].
  pose proof (pg_update_clock _ _ where_ (user_subscriptions db) Hsame) as H.
  destruct (pg_update (u t1) where_ (user_subscriptions db)),
           (pg_update (u t2) where_ (user_subscriptions db));
    try contradiction; [exact H | reflexivity].
Qed.

Ltac same_but_clock_trivial :=
  unfold same_but_clock; simpl; repeat split; reflexivity.

(** The clock reading of a delivery shows in the clock columns only. *)
Lemma delivery_time_shows_in_clock_columns_only event db t1 t2 :
  map without_clock (user_subscriptions (applyLifecycleEvent t1 event db)) =
  map without_clock (user_subscriptions (applyLifecycleEvent t2 event db)).
Proof.
  unfold applyLifecycleEvent, dispatch.
  destruct (ev_payload event) as [s|s|s|i|ty]; [| | | |reflexivity].
  - refine (select_then_update_clock
      (fun now =>
         {| upd_stripe_subscription_id := Some (sub_id s);
            upd_tier := Some premium;
            upd_status := Some (sub_status s);
            upd_trial_end_at := Some (date_of_seconds_or_null (sub_trial_end s));
            upd_current_period_start :=
              Some (Some (sub_current_period_start s * 1000));
            upd_current_period_end :=
              Some (Some (sub_current_period_end s * 1000));
            upd_canceled_at := None;
            upd_updated_at := Some now |})
      (fun r => column_eq (stripe_customer_id r) (expandable_id (sub_customer s)))
      (expandable_id (sub_customer s)) t1 t2 db _).
    same_but_clock_trivial.
  - refine (update_only_clock
      (fun now =>
         {| upd_stripe_subscription_id := None;
            upd_tier := if shouldDowngrade s then Some free else None;
            upd_status := Some (sub_status s);
            upd_trial_end_at := None;
            upd_current_period_start := None;
            upd_current_period_end := None;
            upd_canceled_at :=
              Some (date_of_seconds_or_null (sub_canceled_at s));
            upd_updated_at := Some now |})
      (fun r => column_eq (stripe_subscription_id r) (sub_id s)) t1 t2 db _).
    same_but_clock_trivial.
  - refine (update_only_clock
      (fun now =>
         {| upd_stripe_subscription_id := None;
            upd_tier := Some free;
            upd_status := Some st_canceled;
            upd_trial_end_at := None;
            upd_current_period_start := None;
            upd_current_period_end := None;
            upd_canceled_at := Some (Some now);
            upd_updated_at := Some now |})
      (fun r => column_eq (stripe_subscription_id r) (sub_id s)) t1 t2 db _).
    same_but_clock_trivial.
  - unfold handlePaymentFailed.
    destruct (option_map expandable_id (inv_subscription i)) as [sid|];
      [|reflexivity].
    destruct (String.eqb sid ""); [reflexivity|].
    refine (update_only_clock
      (fun now =>
         {| upd_stripe_subscription_id := None;
            upd_tier := None;
            upd_status := Some st_past_due;
            upd_trial_end_at := None;
            upd_current_period_start := None;
            upd_current_period_end := None;
            upd_canceled_at := None;
            upd_updated_at := Some now |})
      (fun r => column_eq (stripe_subscription_id r) sid) t1 t2 db _).
    same_but_clock_trivial.
Qed.

(** C2, amended: delivering an event a second time leaves every
    subscription record as a single delivery at the time of the second
    one would. The second application therefore changes nothing but
    the columns the handler fills from its clock ([updated_at], and
    [canceled_at]), and it is a no-op when both deliveries read the
    same clock value. *)
Theorem redelivery_equals_single_late_delivery :
  forall (event : StripeEvent) (db : Database) (t1 t2 : Timestamp),
    user_subscriptions
      (applyLifecycleEvent t2 event (applyLifecycleEvent t1 event db)) =
    user_subscriptions (applyLifecycleEvent t2 event db) /\
    map without_clock
      (user_subscriptions
         (applyLifecycleEvent t2 event (applyLifecycleEvent t1 event db))) =
    map without_clock (user_subscriptions (applyLifecycleEvent t1 event db)) /\
    user_subscriptions
      (applyLifecycleEvent t1 event (applyLifecycleEvent t1 event db)) =
    user_subscriptions (applyLifecycleEvent t1 event db).
Proof.
  assert (Hlate : forall event db t1 t2,
            user_subscriptions
              (applyLifecycleEvent t2 event (applyLifecycleEvent t1 event db)) =
            user_subscriptions (applyLifecycleEvent t2 event db)).
  { intros event db t1 t2. unfold applyLifecycleEvent, dispatch.
    destruct (ev_payload event) as [s|s|s|i|ty].
    - apply created_twice.
    - apply updated_twice.
    - apply deleted_twice.
    - apply payment_failed_twice.
    - reflexivity. }
  intros event db t1 t2. split; [|split].
  - apply Hlate.
  - rewrite Hlate. apply delivery_time_shows_in_clock_columns_only.
  - apply Hlate.
Qed.

End Redelivery.

(* ================================================================= *)
(** ** The webhook consumer: the record invariant *)

Section RecordInvariant.

Import Webhook.

(** Wherever a [deleted] event finds its subscription, the record ends
    on the free tier with the subscription reference still in place. *)
Lemma deleted_keeps_reference now s db r :
  distinct (subscription_ids (user_subscriptions db)) = true ->
  In r (user_subscriptions db) ->
  stripe_subscription_id r = Some (sub_id s) ->
  exists r',
    In r' (user_subscriptions (snd (handleSubscriptionDeleted now s db))) /\
    id r' = id r /\ tier r' = free /\
    stripe_subscription_id r' = Some (sub_id s) /\
    ~ record_invariant r'.
Proof.
  intros Hd Hin Hid.
  set (f := fun r : Subscription =>
              {| id := id r; user_id := user_id r;
                 stripe_customer_id := stripe_customer_id r;
                 stripe_subscription_id := stripe_subscription_id r;
                 tier := free; status := canceled;
                 trial_end_at := trial_end_at r;
                 current_period_start := current_period_start r;
                 current_period_end := current_period_end r;
                 canceled_at := Some now;
                 created_at := created_at r; updated_at := now |}).
  exists (f r).
  unfold handleSubscriptionDeleted, pg_update.
  rewrite (patch_rows_map _ _ f) by reflexivity.
  rewrite subscription_ids_map, Hd.
  - cbn [snd user_subscriptions]. repeat split.
    + apply in_map_iff. exists r. split; [|assumption].
      now rewrite (proj2 (column_eq_true _ _) Hid).
    + exact Hid.
    + intros [Hfree _]. specialize (Hfree eq_refl).
      simpl in Hfree. congruence.
  - intros r0. now destruct (column_eq (stripe_subscription_id r0) (sub_id s)).
Qed.

(** The handler that grants the premium tier writes the subscription
    reference with it: on the record of the event's customer both
    references are set afterwards. *)
Lemma created_sets_both_references now s db r' :
  is_ok (fst (handleSubscriptionCreated now s db)) = true ->
  In r' (user_subscriptions (snd (handleSubscriptionCreated now s db))) ->
  stripe_customer_id r' = Some (expandable_id (sub_customer s)) ->
  tier r' = premium /\ stripe_subscription_id r' = Some (sub_id s) /\
  record_invariant r'.
Proof.
  unfold handleSubscriptionCreated.
  set (cid := expandable_id (sub_customer s)).
  destruct (pg_select_single _ (user_subscriptions db)); [|discriminate].
  unfold pg_update.
  match goal with
  | |- context [patch_rows ?u ?w ?t] =>
      destruct (patch_rows u w t) as [t'|] eqn:Hp; [|discriminate]
  end.
  destruct (distinct (subscription_ids t')); [|discriminate].
  cbn [fst snd user_subscriptions]. intros _ Hin Hcus.
  revert t' Hp Hin.
  induction (user_subscriptions db) as [|r t IH]; intros t' Hp Hin; simpl in Hp.
  - injection Hp as <-. destruct Hin.
  - match type of Hp with
    | context [patch_rows ?u ?w t] =>
        destruct (patch_rows u w t) as [t''|] eqn:Hp';
          [|destruct (column_eq (stripe_customer_id r) cid);
            [destruct (patch_row u r)|]; discriminate]
    end.
    destruct (column_eq (stripe_customer_id r) cid) eqn:Hw.
    + unfold patch_row in Hp. simpl in Hp.
      destruct (status_column (sub_status s)); [|discriminate].
      injection Hp as <-. destruct Hin as [<-|Hin].
      * simpl. repeat split; try discriminate.
        apply column_eq_true in Hw. simpl. congruence.
      * exact (IH _ eq_refl Hin).
    + injection Hp as <-. destruct Hin as [<-|Hin].
      * apply column_eq_true in Hcus. congruence.
      * exact (IH _ eq_refl Hin).
Qed.

Lemma patch_rows_Forall (P : Subscription -> Prop) u where_ t t' :
  (forall r r', where_ r = true -> patch_row u r = Some r' -> P r -> P r') ->
  patch_rows u where_ t = Some t' ->
  Forall P t -> Forall P t'.
Proof.
  intros Hstep. revert t'.
  induction t as [|r t IH]; intros t' Hp Hall; simpl in Hp.
  - injection Hp as <-. constructor.
  - inversion Hall as [|? ? Hr Ht]; subst.
    destruct (patch_rows u where_ t) as [t''|];
      [|destruct (if where_ r then patch_row u r else Some r); discriminate].
    destruct (where_ r) eqn:Hw.
    + destruct (patch_row u r) as [r'|] eqn:Hrow; [|discriminate].
      injection Hp as <-. constructor; [|now apply IH].
      exact (Hstep _ _ Hw Hrow Hr).
    + injection Hp as <-. constructor; [assumption | now apply IH].
Qed.

Lemma pg_update_Forall (P : Subscription -> Prop) u where_ t :
  (forall r r', where_ r = true -> patch_row u r = Some r' -> P r -> P r') ->
  Forall P t ->
  Forall P match pg_update u where_ t with Ok t' => t' | Throw _ => t end.
Proof.
  intros Hstep Hall. unfold pg_update.
  destruct (patch_rows u where_ t) as [t'|] eqn:Hp; [|assumption].
  destruct (distinct (subscription_ids t')); [|assumption].
  exact (patch_rows_Forall P _ _ _ _ Hstep Hp Hall).
Qed.

Ltac patched H :=
  unfold patch_row in H; cbn [upd_status upd_stripe_subscription_id upd_tier
    upd_trial_end_at upd_current_period_start upd_current_period_end
    upd_canceled_at upd_updated_at assign] in H;
  match type of H with
  | match ?x with _ => _ end = _ => destruct x; [|discriminate H]
  | _ => idtac
  end;
  injection H as <-.

(** What holds of the four handlers: whatever the event, a premium
    record carries both references afterwards if premium records did
    before; and an event that does not downgrade preserves the whole
    record invariant. *)
Lemma invariant_preserved_short_of_downgrades now event db :
  (Forall premium_has_references (user_subscriptions db) ->
   Forall premium_has_references
     (user_subscriptions (applyLifecycleEvent now event db))) /\
  (downgrades event = false ->
   Forall record_invariant (user_subscriptions db) ->
   Forall record_invariant
     (user_subscriptions (applyLifecycleEvent now event db))).
Proof.
  unfold applyLifecycleEvent, dispatch, downgrades.
  destruct (ev_payload event) as [s|s|s|i|ty].
  - (* created *)
    assert (Hgen : forall P : Subscription -> Prop,
              (forall r r',
                 stripe_customer_id r = Some (expandable_id (sub_customer s)) ->
                 stripe_customer_id r' = stripe_customer_id r ->
                 stripe_subscription_id r' = Some (sub_id s) ->
                 tier r' = premium -> P r') ->
              Forall P (user_subscriptions db) ->
              Forall P (user_subscriptions
                          (snd (handleSubscriptionCreated now s db)))).
    { intros P HP Hall. unfold handleSubscriptionCreated.
      destruct (pg_select_single _ (user_subscriptions db)); [|assumption].
      match goal with
      | |- context [pg_update ?u ?w ?t] =>
          pose proof (pg_update_Forall P u w t) as Hupd;
          destruct (pg_update u w t); [|assumption]
      end.
      cbn [snd user_subscriptions]. apply Hupd; [|assumption].
      intros r r' Hw Hrow _. apply column_eq_true in Hw.
      patched Hrow. now apply (HP r). }
    split.
    + apply Hgen. intros r r' Hcus Hsame Hsub _ _.
      rewrite Hsame, Hcus, Hsub. split; discriminate.
    + intros _. apply Hgen. intros r r' Hcus Hsame Hsub Hprem.
      split; [rewrite Hprem; discriminate|].
      intros _. rewrite Hsame, Hcus, Hsub. split; discriminate.
  - (* updated *)
    assert (Hgen : forall P : Subscription -> Prop,
              (forall r r',
                 stripe_customer_id r' = stripe_customer_id r ->
                 stripe_subscription_id r' = stripe_subscription_id r ->
                 tier r' = (if shouldDowngrade s then free else tier r) ->
                 P r -> P r') ->
              Forall P (user_subscriptions db) ->
              Forall P (user_subscriptions
                          (snd (handleSubscriptionUpdated now s db)))).
    { intros P HP Hall. unfold handleSubscriptionUpdated.
      match goal with
      | |- context [pg_update ?u ?w ?t] =>
          pose proof (pg_update_Forall P u w t) as Hupd;
          destruct (pg_update u w t); [|assumption]
      end.
      cbn [snd user_subscriptions]. apply Hupd; [|assumption].
      intros r r' _ Hrow Hr. patched Hrow.
      apply (HP r); try reflexivity; [|assumption].
      cbn [tier]. now destruct (shouldDowngrade s). }
    split.
    + apply Hgen. intros r r' Hc Hs Ht Hr Hprem.
      rewrite Hc, Hs. apply Hr.
      rewrite Ht in Hprem. now destruct (shouldDowngrade s).
    + intros Hkeep. apply Hgen. intros r r' Hc Hs Ht [Hfree Hprem].
      rewrite Hkeep in Ht. unfold record_invariant.
      rewrite Hc, Hs, Ht. now split.
  - (* deleted *)
    split; [|discriminate].
    intros Hall. unfold handleSubscriptionDeleted.
    match goal with
    | |- context [pg_update ?u ?w ?t] =>
        pose proof (pg_update_Forall premium_has_references u w t) as Hupd;
        destruct (pg_update u w t); [|assumption]
    end.
    cbn [snd user_subscriptions]. apply Hupd; [|assumption].
    intros r r' _ Hrow _. patched Hrow. intros Hprem. discriminate Hprem.
  - (* payment_failed *)
    assert (Hgen : forall P : Subscription -> Prop,
              (forall r r',
                 stripe_customer_id r' = stripe_customer_id r ->
                 stripe_subscription_id r' = stripe_subscription_id r ->
                 tier r' = tier r -> P r -> P r') ->
              Forall P (user_subscriptions db) ->
              Forall P (user_subscriptions (snd (handlePaymentFailed now i db)))).
    { intros P HP Hall. unfold handlePaymentFailed.
      destruct (option_map expandable_id (inv_subscription i)) as [sid|];
        [|assumption].
      destruct (String.eqb sid ""); [assumption|].
      match goal with
      | |- context [pg_update ?u ?w ?t] =>
          pose proof (pg_update_Forall P u w t) as Hupd;
          destruct (pg_update u w t); [|assumption]
      end.
      cbn [snd user_subscriptions]. apply Hupd; [|assumption].
      intros r r' _ Hrow Hr. patched Hrow.
      now apply (HP r). }
    split.
    + apply Hgen. intros r r' Hc Hs Ht Hr Hprem.
      rewrite Hc, Hs. apply Hr. now rewrite <- Ht.
    + intros _. apply Hgen. intros r r' Hc Hs Ht Hr.
      unfold record_invariant. now rewrite Hc, Hs, Ht.
  - split; intros; assumption.
Qed.

(** C3: the invariant is not preserved. A premium record that
    satisfies it is handed a [deleted] event for its subscription; the
    handler sets the tier to free and leaves [stripe_subscription_id]
    set, so the record violates "free implies no subscription
    reference". *)
Theorem deleted_event_breaks_record_invariant :
  Forall record_invariant (user_subscriptions Scenario.premium_store) /\
  exists r,
    user_subscriptions
      (applyLifecycleEvent 1765108801000 Scenario.deleted_event
         Scenario.premium_store) = [r] /\
    tier r = free /\
    stripe_subscription_id r = Some "sub_1" /\
    ~ record_invariant r.
Proof.
  split.
  - repeat constructor; simpl; intros; discriminate.
  - eexists. split; [vm_compute; reflexivity|].
    repeat split.
    intros [Hfree _]. specialize (Hfree eq_refl). discriminate Hfree.
Qed.

End RecordInvariant.

(* ================================================================= *)
(** ** The webhook consumer: the response contract *)

Section ResponseContract.

Import Webhook.

Variable constructEvent : string -> string -> Result unit StripeEvent.

Lemma verifyWebhookSignature_spec body signature :
  verifyWebhookSignature constructEvent body signature =
  match constructEvent body signature with
  | Ok event => Some event
  | Throw _ => None
  end.
Proof.
  unfold verifyWebhookSignature, try_catch, bind.
  now destruct (constructEvent body signature).
Qed.


End ResponseContract.

Example unsigned_post_is_rejected :
  Webhook.serve (Scenario.constructEvent_for Scenario.deleted_event)
    1765108801000 (Scenario.post None) Scenario.premium_store
  = ({| Webhook.resp_status := 400;
        Webhook.resp_body := Webhook.error_body "Missing stripe-signature header" |},
     Scenario.premium_store).
Proof. reflexivity. Qed.

Example forged_post_is_rejected :
  Webhook.serve (Scenario.constructEvent_for Scenario.deleted_event)
    1765108801000 (Scenario.post (Some "t=1,v1=forged")) Scenario.premium_store
  = ({| Webhook.resp_status := 400;
        Webhook.resp_body := Webhook.error_body "Invalid signature" |},
     Scenario.premium_store).
Proof. reflexivity. Qed.


(* ================================================================= *)
(** ** The subscription service: lookup *)

Section Lookup.

Import Service.

Lemma tier_eqb_eq a b : tier_eqb a b = true <-> a = b.
Proof. destruct a, b; simpl; split; congruence. Qed.

Lemma status_eqb_eq a b : status_eqb a b = true <-> a = b.
Proof. destruct a, b; simpl; split; congruence. Qed.

Lemma premium_and_live_spec s :
  premium_and_live s = true <->
  tier s = premium /\ (status s = active \/ status s = trialing).
Proof.
  unfold premium_and_live.
  rewrite andb_true_iff, orb_true_iff, tier_eqb_eq, !status_eqb_eq.
  reflexivity.
Qed.

(** A healthy backend holding exactly one row for the user hands that
    row back, field by field. *)
Lemma getSubscription_found b userId r :
  fault b = None ->
  filter (fun r => String.eqb (user_id r) userId) (rows b) = [r] ->
  getSubscription b userId = Ok (Some r).
Proof.
  intros Hf Hrows. unfold getSubscription, select_single_by_user.
  rewrite Hf, Hrows. simpl. now destruct r.
Qed.

Lemma getSubscription_throws_service_error b userId e :
  getSubscription b userId = Throw e -> exists code, e = ServiceError code.
Proof.
  unfold getSubscription, select_single_by_user.
  destruct (fault b) as [[code|]|]; simpl.
  - destruct (String.eqb code "PGRST116"); [discriminate|].
    intros H. injection H as <-. eauto.
  - intros H. injection H as <-. eauto.
  - destruct (filter _ (rows b)) as [|r [|r' l]]; discriminate.
Qed.

(** C7, as stated, fails: on a store with no record for the user the
    lookup answers null. *)
Lemma lookup_of_new_user_is_null :
  getSubscription empty_backend "user-1" = Ok None /\
  ~ lookup_yields_default_record empty_backend "user-1".
Proof.
  split; [reflexivity|].
  intros (s & H & _). vm_compute in H. discriminate H.
Qed.

(** C7, amended: the lookup creates nothing. For a user with no record
    in the store it reports absence (null); the caller decides what
    absence means. *)
Theorem lookup_without_record_reports_absence :
  forall (b : Backend) (userId : UUID),
    fault b = None ->
    (forall r, In r (rows b) -> user_id r <> userId) ->
    getSubscription b userId = Ok None.
Proof.
  intros b userId Hf Hnone.
  unfold getSubscription, select_single_by_user. rewrite Hf.
  assert (Hempty : filter (fun r => String.eqb (user_id r) userId) (rows b) = []).
  { induction (rows b) as [|r l IH]; [reflexivity|]. simpl.
    destruct (String.eqb (user_id r) userId) eqn:He.
    - apply String.eqb_eq in He. exfalso.
      exact (Hnone r (or_introl eq_refl) He).
    - apply IH. intros r' Hin. apply Hnone. now right. }
  rewrite Hempty. reflexivity.
Qed.

Lemma lookup_without_record_reports_absence_witness :
  getSubscription
    {| rows := [Scenario.premium_record]; fault := None |} "user-2" = Ok None.
Proof.
  apply lookup_without_record_reports_absence.
  - reflexivity.
  - intros r [<-|[]]. discriminate.
Defined.

(** C10: [hasPremiumAccess] always returns, never throws. It answers
    true exactly when the lookup yields a record that is premium and
    active or trialing; it answers false when the lookup yields no
    record and when the lookup throws. On a healthy backend with one
    row for the user the answer is read off that row. *)
Theorem hasPremiumAccess_total_and_fail_closed :
  forall (b : Backend) (userId : UUID),
    exists answer : bool,
      hasPremiumAccess b userId = Ok answer /\
      (answer = true <->
       exists s, getSubscription b userId = Ok (Some s) /\
                 tier s = premium /\
                 (status s = active \/ status s = trialing)) /\
      (getSubscription b userId = Ok None -> answer = false) /\
      (forall e, getSubscription b userId = Throw e -> answer = false) /\
      (forall r, fault b = None ->
                 filter (fun r => String.eqb (user_id r) userId) (rows b) = [r] ->
                 answer = premium_and_live r).
Proof.
  intros b userId. unfold hasPremiumAccess.
  destruct (getSubscription b userId) as [[s|]|e] eqn:Hget; simpl.
  - exists (premium_and_live s). split; [reflexivity|]. repeat split.
    + intros H. exists s. split; [reflexivity|].
      now apply premium_and_live_spec.
    + intros (s' & Heq & Hs'). injection Heq as <-.
      now apply premium_and_live_spec.
    + discriminate.
    + discriminate.
    + intros r Hf Hrows.
      rewrite (getSubscription_found _ _ _ Hf Hrows) in Hget.
      now injection Hget as ->.
  - exists false. split; [reflexivity|]. repeat split; try discriminate.
    + intros (s' & Heq & _). discriminate Heq.
    + intros r Hf Hrows.
      rewrite (getSubscription_found _ _ _ Hf Hrows) in Hget. discriminate.
  - exists false. split; [reflexivity|]. repeat split; try discriminate.
    + intros (s' & Heq & _). discriminate Heq.
    + intros r Hf Hrows.
      rewrite (getSubscription_found _ _ _ Hf Hrows) in Hget. discriminate.
Qed.

End Lookup.

(* ================================================================= *)
(** ** The subscription service: polling after payment *)

Section PollingFacts.

Import Service.

Variable world : nat -> Backend.
Variable userId : UUID.

Lemma fetches_app t1 t2 : fetches (t1 ++ t2) = (fetches t1 + fetches t2)%nat.
Proof.
  induction t1 as [|[ms|] t1 IH]; simpl; [reflexivity | exact IH | now rewrite IH].
Qed.

Lemma slept_app t1 t2 : slept (t1 ++ t2) = slept t1 ++ slept t2.
Proof.
  induction t1 as [|[ms|] t1 IH]; simpl; [reflexivity | now rewrite IH | exact IH].
Qed.

(** The loop never polls more often than it has iterations left, and
    it waits according to the schedule. *)
Lemma poll_bounded remaining attempt :
  (1 <= remaining)%nat ->
  (1 <= fetches (snd (poll world userId remaining attempt)) <= remaining)%nat /\
  slept (snd (poll world userId remaining attempt)) =
  wait_schedule attempt (fetches (snd (poll world userId remaining attempt))).
Proof.
  revert attempt.
  induction remaining as [|remaining IH]; intros attempt Hpos; [lia|].
  cbn [poll].
  set (wait := if (0 <? attempt)%nat
               then [Sleep (nth (attempt - 1) delays 0)] else []).
  assert (Hwf : fetches wait = 0%nat) by (unfold wait; now destruct (0 <? attempt)%nat).
  assert (Hws : slept wait =
                if (0 <? attempt)%nat then [nth (attempt - 1) delays 0] else [])
    by (unfold wait; now destruct (0 <? attempt)%nat).
  assert (Hstop : forall r : Result JsError (option Subscription),
            (1 <= fetches (snd (r, wait ++ [Fetch])) <= S remaining)%nat /\
            slept (snd (r, wait ++ [Fetch])) =
            wait_schedule attempt (fetches (snd (r, wait ++ [Fetch])))).
  { intros r. cbn [snd]. rewrite fetches_app, slept_app, Hwf, Hws. simpl.
    split; [lia|]. now rewrite !app_nil_r. }
  assert (Hagain :
            (1 <= fetches (snd (let (r, trace) := poll world userId remaining (S attempt) in
                                (r, wait ++ Fetch :: trace))) <= S remaining)%nat /\
            slept (snd (let (r, trace) := poll world userId remaining (S attempt) in
                        (r, wait ++ Fetch :: trace))) =
            wait_schedule attempt
              (fetches (snd (let (r, trace) := poll world userId remaining (S attempt) in
                             (r, wait ++ Fetch :: trace))))).
  { destruct remaining as [|remaining'].
    - cbn [poll snd]. rewrite fetches_app, slept_app, Hwf, Hws. simpl.
      split; [lia|]. now rewrite !app_nil_r.
    - destruct (IH (S attempt) ltac:(lia)) as [Hb Hs].
      destruct (poll world userId (S remaining') (S attempt)) as [r trace].
      cbn [snd] in *. rewrite fetches_app, slept_app, Hwf, Hws.
      cbn [fetches slept plus wait_schedule]. rewrite Hs.
      split; [lia | reflexivity]. }
  destruct (getSubscription (world attempt) userId) as [[s|]|e].
  - destruct (tier_eqb (tier s) premium); [apply Hstop | apply Hagain].
  - apply Hagain.
  - apply Hstop.
Qed.


End PollingFacts.

Section Refresh.

Import Service.

(** Whatever the lookups return or throw, the refresh makes at most
    [maxAttempts] polls and one final lookup, and waits 1000 ms and
    then 2000 ms at most. *)
Lemma refresh_always_terminates (world : nat -> Backend) (userId : UUID) :
  (fetches (snd (refreshSubscriptionStatus world userId)) <= S maxAttempts)%nat /\
  exists n, (n < maxAttempts)%nat /\
            slept (snd (refreshSubscriptionStatus world userId)) = firstn n delays.
Proof.
  unfold refreshSubscriptionStatus.
  pose proof (poll_bounded world userId maxAttempts 0 ltac:(unfold maxAttempts; lia))
    as [Hbound Hsleep].
  destruct (poll world userId maxAttempts 0) as [r trace].
  cbn [snd] in Hbound, Hsleep.
  assert (Hschedule : exists n, (n < maxAttempts)%nat /\
                                wait_schedule 0 (fetches trace) = firstn n delays).
  { unfold maxAttempts in *.
    destruct (fetches trace) as [|[|[|[|n]]]]; try lia.
    - exists 0%nat. split; [lia | reflexivity].
    - exists 1%nat. split; [lia | reflexivity].
    - exists 2%nat. split; [lia | reflexivity]. }
  rewrite <- Hsleep in Hschedule.
  assert (Hfinal : forall x : Result JsError Subscription,
            (fetches (snd (x, trace ++ [Fetch])) <= S maxAttempts)%nat /\
            exists n, (n < maxAttempts)%nat /\
                      slept (snd (x, trace ++ [Fetch])) = firstn n delays).
  { intros x. cbn [snd]. rewrite fetches_app, slept_app. simpl.
    rewrite app_nil_r. split; [lia | exact Hschedule]. }
  destruct r as [[s|]|e]; cbn [snd].
  - split; [lia | exact Hschedule].
  - destruct (getSubscription (world (fetches trace)) userId) as [[s|]|e];
      apply Hfinal.
  - split; [lia | exact Hschedule].
Qed.



Lemma delays_increase : delays = [1000; 2000; 3000] /\ 1000 < 2000 < 3000.
Proof. split; [reflexivity | lia]. Qed.

Example refresh_never_premium :
  refreshSubscriptionStatus
    (fun _ => {| rows := [Scenario.free_record]; fault := None |}) "user-1"
  = (Ok Scenario.free_record,
     [Fetch; Sleep 1000; Fetch; Sleep 2000; Fetch; Fetch]).
Proof. reflexivity. Qed.

Example refresh_premium_at_second_poll :
  refreshSubscriptionStatus
    (fun k => {| rows := [if (k <? 1)%nat then Scenario.free_record
                          else Scenario.premium_record];
                 fault := None |}) "user-1"
  = (Ok Scenario.premium_record, [Fetch; Sleep 1000; Fetch]).
Proof. reflexivity. Qed.

End Refresh.

(* ================================================================= *)
(** ** The quota ledger *)

Section QuotaFacts.

Import Quota.

Lemma sql_max_none l : sql_max l = None <-> l = [].
Proof.
  destruct l as [|x l]; simpl.
  - split; reflexivity.
  - destruct (sql_max l); split; discriminate.
Qed.

Lemma sql_max_is_greatest l m :
  sql_max l = Some m -> In m l /\ forall x, In x l -> x <= m.
Proof.
  revert m. induction l as [|x l IH]; intros m H; simpl in H; [discriminate|].
  destruct (sql_max l) as [m'|] eqn:Hm.
  - injection H as <-. destruct (IH m' eq_refl) as [Hin Hle].
    split.
    + destruct (Z.max_spec x m') as [[_ ->]|[_ ->]]; simpl; auto.
    + intros y [<-|Hy]; [lia|]. specialize (Hle y Hy). lia.
  - injection H as <-. apply sql_max_none in Hm. subst l.
    split; [now left|]. intros y [<-|[]]. lia.
Qed.

Lemma sql_max_Permutation l l' :
  Permutation l l' -> sql_max l = sql_max l'.
Proof.
  induction 1 as [|x l l' _ IH|x y l|l l' l'' _ IH1 _ IH2]; simpl.
  - reflexivity.
  - now rewrite IH.
  - destruct (sql_max l) as [m|]; f_equal; lia.
  - congruence.
Qed.

Lemma filter_Permutation {A} (f : A -> bool) l l' :
  Permutation l l' -> Permutation (filter f l) (filter f l').
Proof.
  induction 1 as [|x l l' _ IH|x y l|l l' l'' _ IH1 _ IH2]; simpl.
  - constructor.
  - destruct (f x); [now constructor | assumption].
  - destruct (f x), (f y); try apply Permutation_refl. constructor.
  - now transitivity (filter f l').
Qed.

Lemma filter_nothing {A} (f : A -> bool) l :
  (forall x, In x l -> f x = false) -> filter f l = [].
Proof.
  induction l as [|x l IH]; intros H; simpl; [reflexivity|].
  rewrite (H x (or_introl eq_refl)). apply IH. intros y Hy. apply H. now right.
Qed.

Lemma counts_toward_limit_spec uid now s :
  counts_toward_limit uid now s = true <->
  session_user_id s = uid /\ session_status s = completed /\
  now - INTERVAL_7_days < started_at s.
Proof.
  unfold counts_toward_limit.
  rewrite !andb_true_iff, String.eqb_eq, Z.ltb_lt.
  assert (is_completed (session_status s) = true <-> session_status s = completed)
    by (destruct (session_status s); simpl; split; congruence).
  tauto.
Qed.

(** C4, as stated, fails. A free user completed an exam that started on
    Saturday noon; on Sunday noon, in the next UTC week, no completed
    exam lies in the current week, yet the function answers ineligible
    (until the following Saturday noon). *)
Lemma fixed_week_rule_fails_across_the_cutover :
  ~ spec_fixed_week_rule QuotaScenario.subscriptions
      [QuotaScenario.session "exam-1" completed QuotaScenario.saturday_noon]
      QuotaScenario.sunday_noon "user-1".
Proof.
  intros [[_ Heligible] _].
  assert (Hnone : spec_completed_this_week
                    [QuotaScenario.session "exam-1" completed
                       QuotaScenario.saturday_noon]
                    QuotaScenario.sunday_noon "user-1" = [])
    by (vm_compute; reflexivity).
  specialize (Heligible Hnone). vm_compute in Heligible. discriminate Heligible.
Qed.

(** Within one UTC week the two rules disagree on the reopening time:
    one completed exam on Wednesday 09:00, asked on Thursday, reopens
    the following Wednesday 09:00 and not on Sunday 00:00. *)
Example reopening_is_seven_days_after_the_exam :
  let r := check_exam_eligibility QuotaScenario.subscriptions
             [QuotaScenario.session "exam-1" completed
                QuotaScenario.wednesday_morning]
             QuotaScenario.thursday_morning "user-1" in
  eligible r = false /\
  next_available_at r = Some (QuotaScenario.wednesday_morning + 7 * 86400) /\
  spec_next_week_start QuotaScenario.thursday_morning = QuotaScenario.next_sunday /\
  next_available_at r <> Some QuotaScenario.next_sunday.
Proof. vm_compute. repeat split; discriminate. Qed.

(** C4, amended: for a user who is not premium the window is the
    seven days before the call. The user is eligible exactly when no
    completed exam session of theirs started within those seven days;
    otherwise the answer is ineligible and [next_available_at] is seven
    days after the latest such start. *)
Theorem eligibility_uses_a_rolling_window :
  forall (subscriptions : list Subscription) (exam_sessions : list ExamSession)
         (now : Timestamp) (check_user_id : UUID),
    select_tier subscriptions check_user_id <> Some premium ->
    let r := check_exam_eligibility subscriptions exam_sessions now check_user_id in
    let recent := filter (counts_toward_limit check_user_id now) exam_sessions in
    (forall s, In s recent <->
               In s exam_sessions /\ session_user_id s = check_user_id /\
               session_status s = completed /\
               now - INTERVAL_7_days < started_at s) /\
    (eligible r = true <-> recent = []) /\
    (eligible r = true -> next_available_at r = None) /\
    (eligible r = false ->
     exists last,
       In last recent /\
       (forall s, In s recent -> started_at s <= started_at last) /\
       next_available_at r = Some (started_at last + INTERVAL_7_days)).
Proof.
  intros subscriptions exam_sessions now uid Htier r recent.
  split.
  { intros s. unfold recent. rewrite filter_In, counts_toward_limit_spec.
    reflexivity. }
  assert (Hr : r =
    if 1 <=? Z.of_nat (List.length recent) then
      {| eligible := false;
         reason := "Free tier limit: 1 exam per week";
         next_available_at :=
           option_map (fun t => t + INTERVAL_7_days)
                      (sql_max (map started_at recent)) |}
    else {| eligible := true; reason := "Eligible"; next_available_at := None |}).
  { unfold r, check_exam_eligibility.
    destruct (select_tier subscriptions uid) as [[|]|]; try reflexivity.
    now elim Htier. }
  rewrite Hr. clear Hr.
  destruct recent as [|s0 rest] eqn:Hrecent.
  - simpl. repeat split; try reflexivity; discriminate.
  - assert (Hpos : (1 <=? Z.of_nat (List.length (s0 :: rest))) = true)
      by (apply Z.leb_le; simpl List.length; lia).
    rewrite Hpos. cbn [eligible next_available_at].
    repeat split; try discriminate.
    intros _.
    destruct (sql_max (map started_at (s0 :: rest))) as [m|] eqn:Hmax.
    + destruct (sql_max_is_greatest _ _ Hmax) as [Hin Hle].
      apply in_map_iff in Hin. destruct Hin as (last & <- & Hlast).
      exists last. split; [assumption|]. split; [|reflexivity].
      intros s Hs. apply Hle. now apply in_map.
    + apply sql_max_none in Hmax. discriminate Hmax.
Qed.

Lemma eligibility_uses_a_rolling_window_witness :
  let r := check_exam_eligibility QuotaScenario.subscriptions
             [QuotaScenario.session "exam-1" completed QuotaScenario.saturday_noon]
             QuotaScenario.sunday_noon "user-1" in
  let recent := filter (counts_toward_limit "user-1" QuotaScenario.sunday_noon)
                  [QuotaScenario.session "exam-1" completed
                     QuotaScenario.saturday_noon] in
  (forall s, In s recent <->
             In s [QuotaScenario.session "exam-1" completed
                     QuotaScenario.saturday_noon] /\
             session_user_id s = "user-1" /\
             session_status s = completed /\
             QuotaScenario.sunday_noon - INTERVAL_7_days < started_at s) /\
  (eligible r = true <-> recent = []) /\
  (eligible r = true -> next_available_at r = None) /\
  (eligible r = false ->
   exists last,
     In last recent /\
     (forall s, In s recent -> started_at s <= started_at last) /\
     next_available_at r = Some (started_at last + INTERVAL_7_days)).
Proof.
  apply (eligibility_uses_a_rolling_window QuotaScenario.subscriptions
           [QuotaScenario.session "exam-1" completed QuotaScenario.saturday_noon]
           QuotaScenario.sunday_noon "user-1").
  vm_compute. discriminate.
Defined.

(** C6: sessions that are in progress or abandoned do not count.
    Whatever such sessions are added to the table, in whatever order
    the rows are stored, the eligibility answer is the same; in
    particular a user with no counted completed session stays
    eligible. *)
Theorem unfinished_sessions_do_not_count :
  forall (subscriptions : list Subscription)
         (exam_sessions extra all : list ExamSession)
         (now : Timestamp) (check_user_id : UUID),
    (forall s, In s extra ->
               session_status s = in_progress \/ session_status s = abandoned) ->
    Permutation all (exam_sessions ++ extra) ->
    check_exam_eligibility subscriptions all now check_user_id =
    check_exam_eligibility subscriptions exam_sessions now check_user_id /\
    (filter (counts_toward_limit check_user_id now) exam_sessions = [] ->
     eligible (check_exam_eligibility subscriptions all now check_user_id) = true).
Proof.
  intros subscriptions exam_sessions extra all now uid Hextra Hperm.
  assert (Hcounted :
            Permutation (filter (counts_toward_limit uid now) all)
                        (filter (counts_toward_limit uid now) exam_sessions)).
  { rewrite (filter_Permutation _ _ _ Hperm), filter_app.
    rewrite (filter_nothing _ extra), app_nil_r; [reflexivity|].
    intros s Hs. unfold counts_toward_limit.
    destruct (Hextra s Hs) as [-> | ->]; simpl; now rewrite andb_false_r. }
  assert (Hsame :
            check_exam_eligibility subscriptions all now uid =
            check_exam_eligibility subscriptions exam_sessions now uid).
  { unfold check_exam_eligibility.
    rewrite (Permutation_length Hcounted).
    rewrite (sql_max_Permutation _ _ (Permutation_map started_at Hcounted)).
    reflexivity. }
  split; [exact Hsame|].
  intros Hnone. rewrite Hsame. unfold check_exam_eligibility. rewrite Hnone.
  now destruct (select_tier subscriptions uid) as [[|]|].
Qed.

Lemma unfinished_sessions_do_not_count_witness :
  check_exam_eligibility QuotaScenario.subscriptions
    [QuotaScenario.session "exam-2" abandoned QuotaScenario.wednesday_morning;
     QuotaScenario.session "exam-3" in_progress QuotaScenario.thursday_morning;
     QuotaScenario.session "exam-4" abandoned QuotaScenario.thursday_morning]
    QuotaScenario.thursday_morning "user-1" =
  check_exam_eligibility QuotaScenario.subscriptions []
    QuotaScenario.thursday_morning "user-1" /\
  (filter (counts_toward_limit "user-1" QuotaScenario.thursday_morning) [] = [] ->
   eligible
     (check_exam_eligibility QuotaScenario.subscriptions
        [QuotaScenario.session "exam-2" abandoned QuotaScenario.wednesday_morning;
         QuotaScenario.session "exam-3" in_progress QuotaScenario.thursday_morning;
         QuotaScenario.session "exam-4" abandoned QuotaScenario.thursday_morning]
        QuotaScenario.thursday_morning "user-1") = true).
Proof.
  apply (unfinished_sessions_do_not_count QuotaScenario.subscriptions []
           [QuotaScenario.session "exam-2" abandoned QuotaScenario.wednesday_morning;
            QuotaScenario.session "exam-3" in_progress QuotaScenario.thursday_morning;
            QuotaScenario.session "exam-4" abandoned QuotaScenario.thursday_morning]).
  - intros s [<-|[<-|[<-|[]]]]; simpl; auto.
  - apply Permutation_refl.
Defined.

End QuotaFacts.

(* ================================================================= *)
(** ** The scoring engine *)

Section ScoringFacts.

Import Scoring.

















(** The specification's example: one of two answers is right, the
    overall score is 50.00, the missed category scores 0 and is the
    weakness. *)
Example practice_two_items :
  let r := score_practice ScoringScenario.questions ScoringScenario.answers in
  overall_score r = Some (Qmake 5000 100) /\
  map (fun c => (category c, score c)) (category_breakdown r) =
    [(basic_operations, Qmake 0 1); (geometry, Qmake 100 1)] /\
  map category (practice_strengths r) = [geometry] /\
  map category (practice_weaknesses r) = [basic_operations].
Proof. vm_compute. repeat split. Qed.

End ScoringFacts.

(* ================================================================= *)
(** ** The webhook consumer: what the handlers leave alone *)

Section WebhookFrame.

Import Webhook.

Lemma patch_rows_identity u where_ t t' :
  patch_rows u where_ t = Some t' ->
  map record_identity t' = map record_identity t.
Proof.
  revert t'. induction t as [|r t IH]; intros t' H; simpl in H.
  - injection H as <-. reflexivity.
  - destruct (patch_rows u where_ t) as [t''|];
      [|destruct (if where_ r then patch_row u r else Some r); discriminate].
    destruct (where_ r).
    + destruct (patch_row u r) as [r'|] eqn:Hrow; [|discriminate].
      injection H as <-. simpl. rewrite (IH _ eq_refl). f_equal.
      unfold patch_row in Hrow.
      destruct (match upd_status u with
                | Some s => status_column s
                | None => Some (status r)
                end); [|discriminate].
      injection Hrow as <-. reflexivity.
    + injection H as <-. simpl. now rewrite (IH _ eq_refl).
Qed.

Lemma pg_update_identity u where_ t :
  map record_identity
      match pg_update u where_ t with Ok t' => t' | Throw _ => t end =
  map record_identity t.
Proof.
  unfold pg_update.
  destruct (patch_rows u where_ t) as [t'|] eqn:Hp; [|reflexivity].
  destruct (distinct (subscription_ids t')); [|reflexivity].
  exact (patch_rows_identity _ _ _ _ Hp).
Qed.

Lemma patch_rows_nth u where_ t t' k r :
  patch_rows u where_ t = Some t' ->
  nth_error t k = Some r -> where_ r = false ->
  nth_error t' k = Some r.
Proof.
  revert t' k. induction t as [|r0 t IH]; intros t' k H Hk Hw; simpl in H.
  - destruct k; discriminate Hk.
  - destruct (patch_rows u where_ t) as [t''|];
      [|destruct (if where_ r0 then patch_row u r0 else Some r0); discriminate].
    destruct k as [|k]; simpl in Hk.
    + injection Hk as ->. rewrite Hw in H. injection H as <-. reflexivity.
    + destruct (if where_ r0 then patch_row u r0 else Some r0) as [r0'|];
        [|discriminate].
      injection H as <-. simpl. exact (IH _ _ eq_refl Hk Hw).
Qed.

Lemma pg_update_nth u where_ t k r :
  nth_error t k = Some r -> where_ r = false ->
  nth_error match pg_update u where_ t with Ok t' => t' | Throw _ => t end k
  = Some r.
Proof.
  intros Hk Hw. unfold pg_update.
  destruct (patch_rows u where_ t) as [t'|] eqn:Hp; [|assumption].
  destruct (distinct (subscription_ids t')); [|assumption].
  exact (patch_rows_nth _ _ _ _ _ _ Hp Hk Hw).
Qed.

Lemma patch_rows_no_match u where_ t :
  (forall r, In r t -> where_ r = false) ->
  patch_rows u where_ t = Some t.
Proof.
  induction t as [|r t IH]; intros H; simpl; [reflexivity|].
  rewrite (H r (or_introl eq_refl)), IH; [reflexivity|].
  intros r' Hr'. apply H. now right.
Qed.

Lemma pg_update_no_match u where_ t :
  distinct (subscription_ids t) = true ->
  (forall r, In r t -> where_ r = false) ->
  pg_update u where_ t = Ok t.
Proof.
  intros Hd H. unfold pg_update.
  now rewrite (patch_rows_no_match _ _ _ H), Hd.
Qed.

Lemma pg_select_single_no_match where_ t :
  (forall r, In r t -> where_ r = false) ->
  pg_select_single where_ t = Throw no_single_row.
Proof.
  intros H. unfold pg_select_single.
  now rewrite (filter_nothing _ _ H).
Qed.

(** X1: no event inserts, deletes or reorders subscription records, and
    no event changes the [id], [user_id], [stripe_customer_id] or
    [created_at] of a record. *)
Theorem events_keep_record_identity :
  forall (now : Timestamp) (event : StripeEvent) (db : Database),
    map record_identity (user_subscriptions (applyLifecycleEvent now event db)) =
    map record_identity (user_subscriptions db).
Proof.
  intros now event db. unfold applyLifecycleEvent, dispatch.
  destruct (ev_payload event) as [s|s|s|i|ty]; [| | | |reflexivity].
  - unfold handleSubscriptionCreated.
    destruct (pg_select_single _ (user_subscriptions db)); [|reflexivity].
    match goal with
    | |- context [pg_update ?u ?w ?t] =>
        pose proof (pg_update_identity u w t) as H; destruct (pg_update u w t)
    end; [exact H | reflexivity].
  - unfold handleSubscriptionUpdated.
    match goal with
    | |- context [pg_update ?u ?w ?t] =>
        pose proof (pg_update_identity u w t) as H; destruct (pg_update u w t)
    end; [exact H | reflexivity].
  - unfold handleSubscriptionDeleted.
    match goal with
    | |- context [pg_update ?u ?w ?t] =>
        pose proof (pg_update_identity u w t) as H; destruct (pg_update u w t)
    end; [exact H | reflexivity].
  - unfold handlePaymentFailed.
    destruct (option_map expandable_id (inv_subscription i)) as [sid|];
      [|reflexivity].
    destruct (String.eqb sid ""); [reflexivity|].
    match goal with
    | |- context [pg_update ?u ?w ?t] =>
        pose proof (pg_update_identity u w t) as H; destruct (pg_update u w t)
    end; [exact H | reflexivity].
Qed.

(** X2: an event changes only the records its handler's WHERE clause
    selects: a record of another customer (for created) or of another
    subscription (for updated, deleted, payment_failed) is found
    afterwards at the same place, unchanged. *)
Theorem unaddressed_records_are_untouched :
  forall (now : Timestamp) (event : StripeEvent) (db : Database)
         (k : nat) (r : Subscription),
    nth_error (user_subscriptions db) k = Some r ->
    addressed event r = false ->
    nth_error (user_subscriptions (applyLifecycleEvent now event db)) k = Some r.
Proof.
  intros now event db k r Hk. unfold addressed, applyLifecycleEvent, dispatch.
  destruct (ev_payload event) as [s|s|s|i|ty]; intros Hw; [| | | |assumption].
  - unfold handleSubscriptionCreated.
    destruct (pg_select_single _ (user_subscriptions db)); [|assumption].
    match goal with
    | |- context [pg_update ?u ?w ?t] =>
        pose proof (pg_update_nth u w t k r Hk Hw) as H; destruct (pg_update u w t)
    end; [exact H | assumption].
  - unfold handleSubscriptionUpdated.
    match goal with
    | |- context [pg_update ?u ?w ?t] =>
        pose proof (pg_update_nth u w t k r Hk Hw) as H; destruct (pg_update u w t)
    end; [exact H | assumption].
  - unfold handleSubscriptionDeleted.
    match goal with
    | |- context [pg_update ?u ?w ?t] =>
        pose proof (pg_update_nth u w t k r Hk Hw) as H; destruct (pg_update u w t)
    end; [exact H | assumption].
  - unfold handlePaymentFailed.
    destruct (option_map expandable_id (inv_subscription i)) as [sid|];
      [|assumption].
    destruct (String.eqb sid ""); [assumption|].
    match goal with
    | |- context [pg_update ?u ?w ?t] =>
        pose proof (pg_update_nth u w t k r Hk Hw) as H; destruct (pg_update u w t)
    end; [exact H | assumption].
Qed.

Lemma unaddressed_records_are_untouched_witness :
  nth_error
    (user_subscriptions
       (applyLifecycleEvent 1765108801000 Scenario.created_unknown_customer
          Scenario.premium_store)) 0
  = Some Scenario.premium_record.
Proof.
  apply unaddressed_records_are_untouched; reflexivity.
Defined.

(** X3: an event whose handler selects no record changes nothing, in
    either table. The created handler throws "user not found"; the
    updated, deleted and payment_failed handlers complete without an
    error, so an event for an unknown subscription passes silently. *)
Theorem event_without_record_changes_nothing :
  forall (now : Timestamp) (event : StripeEvent) (db : Database),
    distinct (subscription_ids (user_subscriptions db)) = true ->
    (forall r, In r (user_subscriptions db) -> addressed event r = false) ->
    dispatch now event db = (outcome_without_record event, db).
Proof.
  intros now event db Hd. unfold addressed, outcome_without_record, dispatch.
  destruct db as [subs analytics]. cbn [user_subscriptions] in *.
  destruct (ev_payload event) as [s|s|s|i|ty]; intros Hw; [| | | |reflexivity].
  - unfold handleSubscriptionCreated. cbn [user_subscriptions].
    now rewrite (pg_select_single_no_match _ _ Hw).
  - unfold handleSubscriptionUpdated. cbn [user_subscriptions user_analytics].
    now rewrite (pg_update_no_match _ _ _ Hd Hw).
  - unfold handleSubscriptionDeleted. cbn [user_subscriptions user_analytics].
    now rewrite (pg_update_no_match _ _ _ Hd Hw).
  - unfold handlePaymentFailed. cbn [user_subscriptions user_analytics].
    destruct (option_map expandable_id (inv_subscription i)) as [sid|];
      [|reflexivity].
    destruct (String.eqb sid ""); [reflexivity|].
    now rewrite (pg_update_no_match _ _ _ Hd Hw).
Qed.

Lemma event_without_record_changes_nothing_witness :
  dispatch 1765108801000 Scenario.deleted_event Scenario.free_store =
  (Ok tt, Scenario.free_store).
Proof.
  apply (event_without_record_changes_nothing 1765108801000
           Scenario.deleted_event Scenario.free_store).
  - reflexivity.
  - intros r [<-|[]]. reflexivity.
Defined.

End WebhookFrame.

Section WebhookEffects.

Import Webhook.




Example created_adds_the_analytics_row_once :
  user_analytics
    (applyLifecycleEvent 1765022500000 Scenario.created_trialing
       Scenario.free_store)
  = [{| ua_user_id := "user-1"; ua_updated_at := 1765022500000 |}] /\
  user_analytics
    (applyLifecycleEvent 1765022600000 Scenario.created_trialing
       (applyLifecycleEvent 1765022500000 Scenario.created_trialing
          Scenario.free_store))
  = [{| ua_user_id := "user-1"; ua_updated_at := 1765022500000 |}].
Proof. split; reflexivity. Qed.

(** X5: a payment_failed event for a subscription marks exactly the
    records of that subscription past due and stamps them; tier,
    references, trial and period columns and [canceled_at] stay. An
    invoice without a subscription changes nothing. *)
Theorem payment_failed_marks_past_due :
  forall (now : Timestamp) (invoice : StripeInvoice) (db : Database),
    distinct (subscription_ids (user_subscriptions db)) = true ->
    handlePaymentFailed now invoice db =
    match option_map expandable_id (inv_subscription invoice) with
    | None => (Ok tt, db)
    | Some subscriptionId =>
        if String.eqb subscriptionId "" then (Ok tt, db)
        else
          (Ok tt,
           {| user_subscriptions :=
                map (fun r =>
                       if column_eq (stripe_subscription_id r) subscriptionId
                       then past_due_row now r
                       else r)
                    (user_subscriptions db);
              user_analytics := user_analytics db |})
    end.
Proof.
  intros now invoice db Hd. unfold handlePaymentFailed.
  destruct (option_map expandable_id (inv_subscription invoice)) as [sid|];
    [|reflexivity].
  destruct (String.eqb sid ""); [reflexivity|].
  unfold pg_update.
  rewrite (patch_rows_map _ _ (past_due_row now)) by reflexivity.
  rewrite subscription_ids_map, Hd; [reflexivity|].
  intros r. now destruct (column_eq (stripe_subscription_id r) sid).
Qed.

Lemma payment_failed_marks_past_due_witness :
  handlePaymentFailed 1765108801000
    {| inv_subscription := Some (expanded "sub_1") |} Scenario.premium_store
  = (Ok tt,
     {| user_subscriptions :=
          map (fun r =>
                 if column_eq (stripe_subscription_id r) "sub_1"
                 then past_due_row 1765108801000 r
                 else r)
              (user_subscriptions Scenario.premium_store);
        user_analytics := user_analytics Scenario.premium_store |}).
Proof.
  apply (payment_failed_marks_past_due 1765108801000
           {| inv_subscription := Some (expanded "sub_1") |}
           Scenario.premium_store).
  reflexivity.
Defined.

End WebhookEffects.

Section ServeFrame.

Import Webhook.

Variable constructEvent : string -> string -> Result unit StripeEvent.

(** X6: the entry point answers 200, 400, 405 or 500 and nothing else;
    whenever the answer is not 200 the database is left as it was. A
    request that is not a POST is answered 405 whatever it carries, and
    a POST whose body cannot be read is answered 500. *)
Theorem serve_mutates_only_on_200 :
  forall (now : Timestamp) (req : Request) (db : Database),
    let answer := serve constructEvent now req db in
    In (resp_status (fst answer)) [200; 400; 405; 500] /\
    (resp_status (fst answer) <> 200 -> snd answer = db) /\
    (req_method req <> "POST" -> resp_status (fst answer) = 405) /\
    (req_method req = "POST" -> req_text req = None ->
     resp_status (fst answer) = 500).
Proof.
  intros now req db. unfold serve.
  destruct (String.eqb (req_method req) "POST") eqn:Hm; cbn [negb].
  - apply String.eqb_eq in Hm.
    assert (Hrest :
      forall a : Response * Database,
        In (resp_status (fst a)) [200; 400; 405; 500] ->
        (resp_status (fst a) <> 200 -> snd a = db) ->
        (req_text req = None -> resp_status (fst a) = 500) ->
        In (resp_status (fst a)) [200; 400; 405; 500] /\
        (resp_status (fst a) <> 200 -> snd a = db) /\
        (req_method req <> "POST" -> resp_status (fst a) = 405) /\
        (req_method req = "POST" -> req_text req = None ->
         resp_status (fst a) = 500)).
    { intros a H1 H2 H3. repeat split; auto. intros Hne. now elim Hne. }
    destruct (req_text req) as [body|].
    + destruct (req_stripe_signature req) as [signature|];
        [|apply Hrest; simpl; auto; discriminate].
      destruct (String.eqb signature "");
        [apply Hrest; simpl; auto; discriminate|].
      destruct (verifyWebhookSignature constructEvent body signature) as [event|];
        [|apply Hrest; simpl; auto; discriminate].
      destruct (dispatch now event db) as [[done|processingError] db'];
        apply Hrest; simpl; auto; try discriminate;
        intros Hne; now elim Hne.
    + apply Hrest; simpl; auto.
  - apply String.eqb_neq in Hm. cbn [fst snd resp_status].
    repeat split; simpl; auto. intros He. now elim Hm.
Qed.

End ServeFrame.

(* ================================================================= *)
(** ** The quota ledger: what the answer depends on *)

Section QuotaFrame.

Import Quota.

(** X7: a user whose tier is premium is eligible whatever the session
    history and whatever the status of the subscription, with no
    reopening time; the function reads the tier only. *)
Theorem premium_is_always_eligible :
  forall (subscriptions : list Subscription) (exam_sessions : list ExamSession)
         (now : Timestamp) (check_user_id : UUID) (r : Subscription),
    find (fun r => String.eqb (user_id r) check_user_id) subscriptions = Some r ->
    tier r = premium ->
    check_exam_eligibility subscriptions exam_sessions now check_user_id =
    {| eligible := true; reason := "Premium access"; next_available_at := None |}.
Proof.
  intros subscriptions exam_sessions now uid r Hfind Htier.
  unfold check_exam_eligibility, select_tier. rewrite Hfind. simpl.
  now rewrite Htier.
Qed.

Lemma premium_is_always_eligible_witness :
  check_exam_eligibility
    [{| id := "row-1"; user_id := "user-1";
        stripe_customer_id := Some "cus_1";
        stripe_subscription_id := Some "sub_1";
        tier := premium; status := past_due;
        trial_end_at := None; current_period_start := None;
        current_period_end := None; canceled_at := None;
        created_at := 0; updated_at := 0 |}]
    [QuotaScenario.session "exam-1" completed QuotaScenario.wednesday_morning;
     QuotaScenario.session "exam-2" completed QuotaScenario.thursday_morning]
    QuotaScenario.thursday_morning "user-1" =
  {| eligible := true; reason := "Premium access"; next_available_at := None |}.
Proof.
  eapply premium_is_always_eligible; reflexivity.
Defined.

(** X8: the answer depends on the user's own recent sessions only:
    sessions of other users, and sessions that started seven days
    before the call or earlier, can be added to the table, in any row
    order, without changing it. *)
Theorem other_and_old_sessions_do_not_count :
  forall (subscriptions : list Subscription)
         (exam_sessions extra all : list ExamSession)
         (now : Timestamp) (check_user_id : UUID),
    (forall s, In s extra ->
               session_user_id s <> check_user_id \/
               started_at s <= now - INTERVAL_7_days) ->
    Permutation all (exam_sessions ++ extra) ->
    check_exam_eligibility subscriptions all now check_user_id =
    check_exam_eligibility subscriptions exam_sessions now check_user_id.
Proof.
  intros subscriptions exam_sessions extra all now uid Hextra Hperm.
  assert (Hcounted :
            Permutation (filter (counts_toward_limit uid now) all)
                        (filter (counts_toward_limit uid now) exam_sessions)).
  { rewrite (filter_Permutation _ _ _ Hperm), filter_app.
    rewrite (filter_nothing _ extra), app_nil_r; [reflexivity|].
    intros s Hs.
    destruct (counts_toward_limit uid now s) eqn:Hc; [|reflexivity].
    apply counts_toward_limit_spec in Hc. destruct Hc as (Hu & _ & Ht).
    destruct (Hextra s Hs) as [Hne | Hold]; [now elim Hne | lia]. }
  unfold check_exam_eligibility.
  rewrite (Permutation_length Hcounted).
  rewrite (sql_max_Permutation _ _ (Permutation_map started_at Hcounted)).
  reflexivity.
Qed.

Lemma other_and_old_sessions_do_not_count_witness :
  check_exam_eligibility QuotaScenario.subscriptions
    [{| session_id := "exam-7"; session_user_id := "user-2";
        session_status := completed;
        started_at := QuotaScenario.wednesday_morning;
        completed_at := None; total_questions := 40;
        questions_answered := 40 |};
     QuotaScenario.session "exam-1" completed
       (QuotaScenario.thursday_morning - 7 * 86400)]
    QuotaScenario.thursday_morning "user-1" =
  check_exam_eligibility QuotaScenario.subscriptions []
    QuotaScenario.thursday_morning "user-1".
Proof.
  apply (other_and_old_sessions_do_not_count QuotaScenario.subscriptions []
           [{| session_id := "exam-7"; session_user_id := "user-2";
               session_status := completed;
               started_at := QuotaScenario.wednesday_morning;
               completed_at := None; total_questions := 40;
               questions_answered := 40 |};
            QuotaScenario.session "exam-1" completed
              (QuotaScenario.thursday_morning - 7 * 86400)]).
  - intros s [<-|[<-|[]]].
    + left. discriminate.
    + right. vm_compute. discriminate.
  - apply Permutation_refl.
Defined.

Lemma check_when_not_premium subscriptions exam_sessions now uid :
  select_tier subscriptions uid <> Some premium ->
  check_exam_eligibility subscriptions exam_sessions now uid =
  let recent := filter (counts_toward_limit uid now) exam_sessions in
  if 1 <=? Z.of_nat (List.length recent) then
    {| eligible := false;
       reason := "Free tier limit: 1 exam per week";
       next_available_at :=
         option_map (fun t => t + INTERVAL_7_days)
                    (sql_max (map started_at recent)) |}
  else {| eligible := true; reason := "Eligible"; next_available_at := None |}.
Proof.
  intros Htier. unfold check_exam_eligibility.
  destruct (select_tier subscriptions uid) as [[|]|]; try reflexivity.
  now elim Htier.
Qed.

(** X9: the reopening time is exact. If the check answers ineligible
    with [next_available_at = t] then, the tables staying as they are,
    [t] lies after the call, the check still answers ineligible at
    every time from the call up to [t], and it answers eligible at
    [t]. *)
Theorem next_available_at_is_the_reopening_time :
  forall (subscriptions : list Subscription) (exam_sessions : list ExamSession)
         (now : Timestamp) (check_user_id : UUID) (t : Timestamp),
    eligible (check_exam_eligibility subscriptions exam_sessions now check_user_id)
    = false ->
    next_available_at
      (check_exam_eligibility subscriptions exam_sessions now check_user_id)
    = Some t ->
    now < t /\
    (forall t', now <= t' < t ->
       eligible (check_exam_eligibility subscriptions exam_sessions t'
                   check_user_id) = false) /\
    eligible (check_exam_eligibility subscriptions exam_sessions t check_user_id)
    = true.
Proof.
  intros subscriptions exam_sessions now uid t Hdenied.
  assert (Htier : select_tier subscriptions uid <> Some premium).
  { intros Hp. unfold check_exam_eligibility in Hdenied.
    rewrite Hp in Hdenied. discriminate Hdenied. }
  clear Hdenied.
  rewrite (check_when_not_premium _ _ now _ Htier).
  set (recent := filter (counts_toward_limit uid now) exam_sessions).
  cbv zeta.
  destruct (1 <=? Z.of_nat (List.length recent)); [|discriminate].
  cbn [next_available_at]. intros Hnext.
  destruct (sql_max (map started_at recent)) as [m|] eqn:Hmax; [|discriminate].
  injection Hnext as <-.
  destruct (sql_max_is_greatest _ _ Hmax) as [Hin Hle].
  apply in_map_iff in Hin. destruct Hin as (last & Hlast & Hin).
  unfold recent in Hin. apply filter_In in Hin. destruct Hin as [Hin Hc].
  apply counts_toward_limit_spec in Hc. destruct Hc as (Hu & Hs & Ht).
  split; [lia|]. split.
  - intros t' Ht'. rewrite (check_when_not_premium _ _ t' _ Htier). cbv zeta.
    assert (Hc' : counts_toward_limit uid t' last = true)
      by (apply counts_toward_limit_spec; repeat split; auto; lia).
    assert (Hin' : In last (filter (counts_toward_limit uid t') exam_sessions))
      by (apply filter_In; split; assumption).
    destruct (filter (counts_toward_limit uid t') exam_sessions) as [|x l];
      [destruct Hin'|].
    assert (Hpos : (1 <=? Z.of_nat (List.length (x :: l))) = true)
      by (apply Z.leb_le; simpl List.length; lia).
    now rewrite Hpos.
  - rewrite (check_when_not_premium _ _ _ _ Htier). cbv zeta.
    rewrite (filter_nothing _ exam_sessions); [reflexivity|].
    intros s Hs'.
    destruct (counts_toward_limit uid (m + INTERVAL_7_days) s) eqn:Hc;
      [|reflexivity].
    apply counts_toward_limit_spec in Hc. destruct Hc as (Hu' & Hst' & Ht'').
    assert (Hrecent : In s recent).
    { apply filter_In. split; [assumption|].
      apply counts_toward_limit_spec. repeat split; auto. lia. }
    specialize (Hle (started_at s) (in_map started_at _ _ Hrecent)). lia.
Qed.

Lemma next_available_at_is_the_reopening_time_witness :
  QuotaScenario.sunday_noon < QuotaScenario.saturday_noon + 7 * 86400 /\
  (forall t', QuotaScenario.sunday_noon <= t'
              < QuotaScenario.saturday_noon + 7 * 86400 ->
     eligible (check_exam_eligibility QuotaScenario.subscriptions
                 [QuotaScenario.session "exam-1" completed
                    QuotaScenario.saturday_noon]
                 t' "user-1") = false) /\
  eligible (check_exam_eligibility QuotaScenario.subscriptions
              [QuotaScenario.session "exam-1" completed
                 QuotaScenario.saturday_noon]
              (QuotaScenario.saturday_noon + 7 * 86400) "user-1") = true.
Proof.
  apply (next_available_at_is_the_reopening_time QuotaScenario.subscriptions
           [QuotaScenario.session "exam-1" completed QuotaScenario.saturday_noon]
           QuotaScenario.sunday_noon "user-1").
  - reflexivity.
  - reflexivity.
Defined.

End QuotaFrame.

(* ================================================================= *)
(** ** The database functions *)

Section SqlFacts.

Import Service.

Lemma filter_user_unique (userId : UUID) (t : list Subscription) :
  NoDup (map user_id t) ->
  filter (fun r => String.eqb (user_id r) userId) t = [] \/
  exists r, filter (fun r => String.eqb (user_id r) userId) t = [r].
Proof.
  induction t as [|r0 t IH]; intros Hnd; simpl; [now left|].
  inversion Hnd as [|? ? Hnotin Hnd']; subst.
  destruct (String.eqb (user_id r0) userId) eqn:He.
  - right. exists r0. f_equal.
    apply filter_nothing. intros r Hr.
    apply String.eqb_eq in He.
    destruct (String.eqb (user_id r) userId) eqn:He'; [|reflexivity].
    apply String.eqb_eq in He'. exfalso. apply Hnotin.
    rewrite He, <- He'. now apply in_map.
  - exact (IH Hnd').
Qed.

Lemma has_premium_access_filter (t : list Subscription) (userId : UUID) :
  Sql.has_premium_access t userId =
  existsb premium_and_live
          (filter (fun r => String.eqb (user_id r) userId) t).
Proof.
  unfold Sql.has_premium_access.
  induction t as [|r t IH]; simpl; [reflexivity|].
  rewrite IH. unfold premium_and_live.
  now destruct (String.eqb (user_id r) userId).
Qed.

(** X10: the database's [has_premium_access] and the client's
    [hasPremiumAccess] agree: on a backend that answers the lookup,
    with at most one subscription row per user (the UNIQUE constraint
    on [user_id]), the client returns what the SQL function returns on
    the same rows. *)
Theorem has_premium_access_agrees_with_the_service :
  forall (b : Backend) (userId : UUID),
    fault b = None ->
    NoDup (map user_id (rows b)) ->
    hasPremiumAccess b userId = Ok (Sql.has_premium_access (rows b) userId).
Proof.
  intros b userId Hf Hnd. rewrite has_premium_access_filter.
  unfold hasPremiumAccess.
  destruct (filter_user_unique userId (rows b) Hnd) as [Hnone | [r Hone]].
  - unfold getSubscription, select_single_by_user.
    rewrite Hf, Hnone. reflexivity.
  - rewrite (getSubscription_found _ _ _ Hf Hone), Hone. simpl.
    now rewrite orb_false_r.
Qed.

Lemma has_premium_access_agrees_with_the_service_witness :
  hasPremiumAccess
    {| rows := [Scenario.premium_record]; fault := None |} "user-1"
  = Ok (Sql.has_premium_access [Scenario.premium_record] "user-1").
Proof.
  apply (has_premium_access_agrees_with_the_service
           {| rows := [Scenario.premium_record]; fault := None |} "user-1").
  - reflexivity.
  - repeat constructor. intros [].
Defined.

End SqlFacts.

Section PracticeHours.

Import Practice.

Lemma round_div_close n d :
  0 < d ->
  - d <= 2 * (n - d * Sql.round_div n d) <= d /\
  (0 <= n -> 0 <= Sql.round_div n d).
Proof.
  intros Hd. unfold Sql.round_div.
  destruct (0 <=? n) eqn:Hn.
  - apply Z.leb_le in Hn.
    pose proof (Z.div_mod (2 * n + d) (2 * d) ltac:(lia)) as Hdm.
    pose proof (Z.mod_pos_bound (2 * n + d) (2 * d) ltac:(lia)) as Hb.
    split; [nia|]. intros _. apply Z.div_pos; lia.
  - apply Z.leb_gt in Hn.
    pose proof (Z.div_mod (2 * - n + d) (2 * d) ltac:(lia)) as Hdm.
    pose proof (Z.mod_pos_bound (2 * - n + d) (2 * d) ltac:(lia)) as Hb.
    split; [nia | lia].
Qed.

Lemma sql_sum_Permutation l l' :
  Permutation l l' -> Sql.sql_sum l = Sql.sql_sum l'.
Proof.
  induction 1 as [|x l l' _ IH|x y l|l l' l'' _ IH1 _ IH2]; simpl.
  - reflexivity.
  - now rewrite IH.
  - destruct x, y, (Sql.sql_sum l); f_equal; lia.
  - congruence.
Qed.

Lemma sql_sum_app l l' :
  Sql.coalesce (Sql.sql_sum (l ++ l')) 0 =
  Sql.coalesce (Sql.sql_sum l) 0 + Sql.coalesce (Sql.sql_sum l') 0.
Proof.
  induction l as [|[x|] l IH]; simpl.
  - reflexivity.
  - destruct (Sql.sql_sum (l ++ l')), (Sql.sql_sum l), (Sql.sql_sum l');
      simpl in *; lia.
  - exact IH.
Qed.

(** X11: the practice hours are the seconds of the user's completed
    sessions, summed, divided by 3600 and rounded to hundredths: the
    result is within half a hundredth of an hour of the exact value, it
    is not negative when the sum is not, and it is an error exactly
    when the sum does not fit a 32-bit integer. A user with no
    completed session has 0.00 hours. *)
Theorem practice_hours_are_rounded_hours :
  forall (practice_sessions : list PracticeSession) (for_user_id : UUID),
    let total := total_seconds practice_sessions for_user_id in
    match calculate_practice_hours practice_sessions for_user_id with
    | Some hundredths =>
        Sql.fits_int4 total = true /\
        - 18 <= total - 36 * hundredths <= 18 /\
        (0 <= total -> 0 <= hundredths) /\
        (filter (counted for_user_id) practice_sessions = [] -> hundredths = 0)
    | None => Sql.fits_int4 total = false
    end.
Proof.
  intros practice_sessions uid total. unfold calculate_practice_hours.
  fold total. destruct (Sql.fits_int4 total) eqn:Hfit; [|reflexivity].
  split; [reflexivity|].
  destruct (round_div_close (total * 100) 3600 ltac:(lia)) as [Hclose Hpos].
  split; [lia|]. split; [intros H; apply Hpos; lia|].
  intros Hnone. unfold total, total_seconds. rewrite Hnone. reflexivity.
Qed.

(** X12: only completed sessions of the user with a recorded time add
    to the practice hours: sessions of other users, sessions in
    progress or abandoned, and sessions whose time is NULL can be
    added, in any row order, without changing the result; and a
    further completed session adds its seconds to the sum. *)
Theorem practice_hours_count_completed_sessions :
  forall (practice_sessions extra all : list PracticeSession)
         (for_user_id : UUID),
    Permutation all (practice_sessions ++ extra) ->
    total_seconds all for_user_id =
    total_seconds practice_sessions for_user_id +
    total_seconds extra for_user_id /\
    ((forall p, In p extra ->
                practice_user_id p <> for_user_id \/
                practice_status p <> completed \/
                time_spent_seconds p = None) ->
     calculate_practice_hours all for_user_id =
     calculate_practice_hours practice_sessions for_user_id).
Proof.
  intros practice_sessions extra all uid Hperm.
  assert (Hsum : total_seconds all uid =
                 total_seconds practice_sessions uid + total_seconds extra uid).
  { unfold total_seconds.
    rewrite (sql_sum_Permutation _ _
               (Permutation_map time_spent_seconds
                  (filter_Permutation (counted uid) _ _ Hperm))).
    now rewrite filter_app, map_app, sql_sum_app. }
  split; [exact Hsum|].
  intros Hextra. unfold calculate_practice_hours. rewrite Hsum.
  assert (Hzero : total_seconds extra uid = 0).
  { unfold total_seconds. clear - Hextra.
    induction extra as [|p extra IH]; [reflexivity|]. simpl.
    assert (IH' : Sql.coalesce
                    (Sql.sql_sum (map time_spent_seconds
                                      (filter (counted uid) extra))) 0 = 0)
      by (apply IH; intros q Hq; apply Hextra; now right).
    destruct (counted uid p) eqn:Hc; [|exact IH'].
    unfold counted in Hc. apply andb_true_iff in Hc. destruct Hc as [Hu Hs].
    apply String.eqb_eq in Hu.
    destruct (Hextra p (or_introl eq_refl)) as [Hne | [Hne | Hnull]].
    - now elim Hne.
    - destruct (practice_status p); try discriminate Hs. now elim Hne.
    - simpl. rewrite Hnull. exact IH'. }
  now rewrite Hzero, Z.add_0_r.
Qed.

Lemma practice_hours_count_completed_sessions_witness :
  total_seconds
    [{| practice_id := "p1"; practice_user_id := "user-1";
        practice_status := completed; time_spent_seconds := Some 5400 |};
     {| practice_id := "p2"; practice_user_id := "user-1";
        practice_status := abandoned; time_spent_seconds := Some 900 |}]
    "user-1" =
  total_seconds
    [{| practice_id := "p1"; practice_user_id := "user-1";
        practice_status := completed; time_spent_seconds := Some 5400 |}]
    "user-1" +
  total_seconds
    [{| practice_id := "p2"; practice_user_id := "user-1";
        practice_status := abandoned; time_spent_seconds := Some 900 |}]
    "user-1" /\
  ((forall p,
      In p [{| practice_id := "p2"; practice_user_id := "user-1";
               practice_status := abandoned; time_spent_seconds := Some 900 |}] ->
      practice_user_id p <> "user-1" \/
      practice_status p <> completed \/
      time_spent_seconds p = None) ->
   calculate_practice_hours
     [{| practice_id := "p1"; practice_user_id := "user-1";
         practice_status := completed; time_spent_seconds := Some 5400 |};
      {| practice_id := "p2"; practice_user_id := "user-1";
         practice_status := abandoned; time_spent_seconds := Some 900 |}]
     "user-1" =
   calculate_practice_hours
     [{| practice_id := "p1"; practice_user_id := "user-1";
         practice_status := completed; time_spent_seconds := Some 5400 |}]
     "user-1").
Proof.
  apply (practice_hours_count_completed_sessions
           [{| practice_id := "p1"; practice_user_id := "user-1";
               practice_status := completed; time_spent_seconds := Some 5400 |}]
           [{| practice_id := "p2"; practice_user_id := "user-1";
               practice_status := abandoned; time_spent_seconds := Some 900 |}]).
  apply Permutation_refl.
Defined.

Example ninety_minutes_are_one_and_a_half_hours :
  calculate_practice_hours
    [{| practice_id := "p1"; practice_user_id := "user-1";
        practice_status := completed; time_spent_seconds := Some 5400 |};
     {| practice_id := "p2"; practice_user_id := "user-1";
        practice_status := abandoned; time_spent_seconds := Some 900 |}]
    "user-1" = Some 150.
Proof. reflexivity. Qed.

End PracticeHours.

Section AnalyticsTrigger.

Import Analytics.

Lemma increment_spec counter n :
  increment counter = Some n -> n = option_map (fun c => c + 1) counter.
Proof.
  unfold increment. destruct counter as [c|]; simpl.
  - destruct (Sql.fits_int4 (c + 1)); [|discriminate].
    intros H. now injection H as <-.
  - intros H. now injection H as <-.
Qed.

(** One insert, seen from one row. *)
Lemma trigger_step now i t t1 k a :
  update_user_analytics now i t = Some t1 ->
  nth_error t k = Some a ->
  exists a1,
    nth_error t1 k = Some a1 /\
    analytics_user_id a1 = analytics_user_id a /\
    total_practice_hours a1 = total_practice_hours a /\
    strongest_category a1 = strongest_category a /\
    weakest_category a1 = weakest_category a /\
    total_exams_completed a1 =
      option_map (fun c => c + exam_results_of (analytics_user_id a) [(now, i)])
                 (total_exams_completed a) /\
    total_practices_completed a1 =
      option_map (fun c => c + practice_results_of (analytics_user_id a) [(now, i)])
                 (total_practices_completed a).
Proof.
  revert t1 k. induction t as [|a0 t IH]; intros t1 k H Hk; simpl in H.
  - destruct k; discriminate Hk.
  - destruct (update_user_analytics now i t) as [t'|];
      [|destruct (if String.eqb (analytics_user_id a0) (inserted_user i)
                  then update_row now i a0 else Some a0); discriminate].
    destruct k as [|k]; simpl in Hk.
    + injection Hk as ->.
      unfold exam_results_of, practice_results_of. cbn [filter snd].
      destruct i as [r|u]; cbn [inserted_user] in H.
      * rewrite (String.eqb_sym (result_user_id r)).
        destruct (String.eqb (analytics_user_id a) (result_user_id r)).
        -- unfold update_row in H.
           destruct (increment (total_exams_completed a)) as [n|] eqn:Hn;
             [|discriminate].
           injection H as <-. eexists. split; [reflexivity|]. simpl.
           rewrite (increment_spec _ _ Hn).
           repeat split; destruct (total_exams_completed a),
             (total_practices_completed a); simpl; f_equal; lia.
        -- injection H as <-. exists a. split; [reflexivity|]. simpl.
           repeat split; destruct (total_exams_completed a),
             (total_practices_completed a); simpl; f_equal; lia.
      * rewrite (String.eqb_sym u).
        destruct (String.eqb (analytics_user_id a) u).
        -- unfold update_row in H.
           destruct (increment (total_practices_completed a)) as [n|] eqn:Hn;
             [|discriminate].
           injection H as <-. eexists. split; [reflexivity|]. simpl.
           rewrite (increment_spec _ _ Hn).
           repeat split; destruct (total_exams_completed a),
             (total_practices_completed a); simpl; f_equal; lia.
        -- injection H as <-. exists a. split; [reflexivity|]. simpl.
           repeat split; destruct (total_exams_completed a),
             (total_practices_completed a); simpl; f_equal; lia.
    + destruct (if String.eqb (analytics_user_id a0) (inserted_user i)
                then update_row now i a0 else Some a0) as [a0'|]; [|discriminate].
      injection H as <-. simpl. exact (IH _ _ eq_refl Hk).
Qed.

Lemma results_of_cons user now i inserts :
  exam_results_of user ((now, i) :: inserts) =
  exam_results_of user [(now, i)] + exam_results_of user inserts /\
  practice_results_of user ((now, i) :: inserts) =
  practice_results_of user [(now, i)] + practice_results_of user inserts.
Proof.
  unfold exam_results_of, practice_results_of. cbn [filter snd].
  split.
  - destruct i as [r|u]; [destruct (String.eqb (result_user_id r) user)|];
      simpl List.length; lia.
  - destruct i as [r|u]; [|destruct (String.eqb u user)];
      simpl List.length; lia.
Qed.

(** X13: the counters of a user's analytics row count the results
    inserted for that user: after a sequence of inserts that all go
    through, every row is still in its place, its exam counter has
    grown by the number of exam results of its user and its practice
    counter by the number of practice results of its user (a NULL
    counter stays NULL). The trigger never writes
    [total_practice_hours], [strongest_category] or
    [weakest_category]. *)
Theorem analytics_counters_count_results :
  forall (inserts : list (Timestamp * Inserted))
         (user_analytics after : list AnalyticsRow) (k : nat) (a : AnalyticsRow),
    insert_all inserts user_analytics = Some after ->
    nth_error user_analytics k = Some a ->
    exists a',
      nth_error after k = Some a' /\
      analytics_user_id a' = analytics_user_id a /\
      total_exams_completed a' =
        option_map (fun c => c + exam_results_of (analytics_user_id a) inserts)
                   (total_exams_completed a) /\
      total_practices_completed a' =
        option_map (fun c => c + practice_results_of (analytics_user_id a) inserts)
                   (total_practices_completed a) /\
      total_practice_hours a' = total_practice_hours a /\
      strongest_category a' = strongest_category a /\
      weakest_category a' = weakest_category a.
Proof.
  induction inserts as [|[now i] inserts IH];
    intros user_analytics after k a Hall Hk; simpl in Hall.
  - injection Hall as <-. exists a. split; [assumption|].
    unfold exam_results_of, practice_results_of. simpl.
    repeat split; destruct (total_exams_completed a),
      (total_practices_completed a); simpl; f_equal; lia.
  - destruct (update_user_analytics now i user_analytics) as [t1|] eqn:Hstep;
      [|discriminate].
    destruct (trigger_step _ _ _ _ _ _ Hstep Hk)
      as (a1 & Hk1 & Hu1 & Hh1 & Hs1 & Hw1 & He1 & Hp1).
    destruct (IH _ _ _ _ Hall Hk1)
      as (a' & Hk' & Hu' & He' & Hp' & Hh' & Hs' & Hw').
    exists a'. split; [assumption|].
    destruct (results_of_cons (analytics_user_id a) now i inserts) as [Hce Hcp].
    rewrite Hu1 in *.
    repeat split; try congruence.
    + rewrite He', He1, Hce.
      destruct (total_exams_completed a); simpl; f_equal; lia.
    + rewrite Hp', Hp1, Hcp.
      destruct (total_practices_completed a); simpl; f_equal; lia.
Qed.

Lemma analytics_counters_count_results_witness :
  exists a',
    nth_error [AnalyticsScenario.row_after] 0 = Some a' /\
    analytics_user_id a' = analytics_user_id AnalyticsScenario.row_before /\
    total_exams_completed a' =
      option_map
        (fun c => c + exam_results_of
                        (analytics_user_id AnalyticsScenario.row_before)
                        AnalyticsScenario.two_inserts)
        (total_exams_completed AnalyticsScenario.row_before) /\
    total_practices_completed a' =
      option_map
        (fun c => c + practice_results_of
                        (analytics_user_id AnalyticsScenario.row_before)
                        AnalyticsScenario.two_inserts)
        (total_practices_completed AnalyticsScenario.row_before) /\
    total_practice_hours a' = total_practice_hours AnalyticsScenario.row_before /\
    strongest_category a' = strongest_category AnalyticsScenario.row_before /\
    weakest_category a' = weakest_category AnalyticsScenario.row_before.
Proof.
  exact (analytics_counters_count_results
           AnalyticsScenario.two_inserts
           [AnalyticsScenario.row_before] [AnalyticsScenario.row_after]
           0 AnalyticsScenario.row_before eq_refl eq_refl).
Defined.

(** X14: a result inserted for a user who has no analytics row is not
    recorded anywhere: the trigger goes through and leaves the table as
    it was. This is why the handler of a created event makes sure the
    row exists. *)
Theorem results_without_analytics_row_are_dropped :
  forall (now : Timestamp) (i : Inserted) (user_analytics : list AnalyticsRow),
    (forall a, In a user_analytics -> analytics_user_id a <> inserted_user i) ->
    update_user_analytics now i user_analytics = Some user_analytics.
Proof.
  intros now i t H. induction t as [|a t IH]; simpl; [reflexivity|].
  assert (Hne : String.eqb (analytics_user_id a) (inserted_user i) = false)
    by (apply String.eqb_neq, H; now left).
  rewrite Hne, IH; [reflexivity|].
  intros a' Ha'. apply H. now right.
Qed.

Lemma results_without_analytics_row_are_dropped_witness :
  update_user_analytics 1765108800 (into_practice_results "user-1") [] = Some [].
Proof.
  apply results_without_analytics_row_are_dropped. intros a [].
Defined.

(** X15: for an exam result that passes the CHECK constraints, the
    generated overall average lies between the two section scores,
    hence between 0 and 100, and is the mean of the two rounded to a
    hundredth (at most half a hundredth above the exact mean). *)
Theorem overall_average_lies_between_the_section_scores :
  forall r : ExamResultInsert,
    checks_pass r = true ->
    Z.min (verbal_score r) (quantitative_score r) <= overall_average r
      <= Z.max (verbal_score r) (quantitative_score r) /\
    0 <= overall_average r <= 10000 /\
    0 <= 2 * overall_average r - (verbal_score r + quantitative_score r) <= 1.
Proof.
  intros r Hc. unfold checks_pass in Hc.
  rewrite !andb_true_iff, !Z.leb_le in Hc.
  destruct Hc as [[[Hv0 Hv1] Hq0] Hq1].
  unfold overall_average, Sql.round_div.
  assert (Hn : (0 <=? verbal_score r + quantitative_score r) = true)
    by (apply Z.leb_le; lia).
  rewrite Hn.
  set (n := verbal_score r + quantitative_score r) in *.
  pose proof (Z.div_mod (2 * n + 2) (2 * 2) ltac:(lia)) as Hdm.
  pose proof (Z.mod_pos_bound (2 * n + 2) (2 * 2) ltac:(lia)) as Hb.
  assert (Hparity : (2 * n + 2) mod (2 * 2) = 0 \/ (2 * n + 2) mod (2 * 2) = 2).
  { pose proof (Z.div_mod n 2 ltac:(lia)) as Hn2.
    pose proof (Z.mod_pos_bound n 2 ltac:(lia)) as Hb2.
    assert (Hcases : n mod 2 = 0 \/ n mod 2 = 1) by lia.
    destruct Hcases as [H0 | H1].
    - right. replace (2 * n + 2) with (2 + (n / 2) * (2 * 2)) by lia.
      rewrite Z.mod_add by lia. reflexivity.
    - left. replace (2 * n + 2) with (0 + (n / 2 + 1) * (2 * 2)) by lia.
      rewrite Z.mod_add by lia. reflexivity. }
  unfold n in *. lia.
Qed.

Lemma overall_average_lies_between_the_section_scores_witness :
  Z.min 8001 7000 <=
    overall_average {| result_user_id := "user-1"; verbal_score := 8001;
                       quantitative_score := 7000 |}
    <= Z.max 8001 7000 /\
  0 <= overall_average {| result_user_id := "user-1"; verbal_score := 8001;
                          quantitative_score := 7000 |} <= 10000 /\
  0 <= 2 * overall_average {| result_user_id := "user-1"; verbal_score := 8001;
                              quantitative_score := 7000 |}
       - (8001 + 7000) <= 1.
Proof.
  apply (overall_average_lies_between_the_section_scores
           {| result_user_id := "user-1"; verbal_score := 8001;
              quantitative_score := 7000 |}).
  reflexivity.
Defined.

End AnalyticsTrigger.

(* ================================================================= *)
(** ** The service's actions *)

Section ServiceActions.

Import Service Actions.

Lemma subscription_reference_ok world userId reference :
  subscription_reference world userId = Ok reference ->
  reference <> "" /\
  exists s, getSubscription (world 0%nat) userId = Ok (Some s) /\
            stripe_subscription_id s = Some reference.
Proof.
  unfold subscription_reference.
  destruct (getSubscription (world 0%nat) userId) as [[s|]|e]; simpl;
    try discriminate.
  destruct (stripe_subscription_id s) as [r|] eqn:Hr; simpl; [|discriminate].
  destruct (String.eqb r "") eqn:He; [discriminate|].
  intros H. injection H as <-.
  apply String.eqb_neq in He. eauto.
Qed.

Lemma subscription_reference_throws world userId e :
  subscription_reference world userId = Throw e ->
  exists code, e = ServiceError code.
Proof.
  unfold subscription_reference.
  destruct (getSubscription (world 0%nat) userId) as [[s|]|e'] eqn:Hg; simpl.
  - destruct (stripe_subscription_id s) as [r|]; simpl.
    + destruct (String.eqb r ""); [|discriminate].
      intros H. injection H as <-. eauto.
    + intros H. injection H as <-. eauto.
  - intros H. injection H as <-. eauto.
  - intros H. injection H as <-.
    exact (getSubscription_throws_service_error _ _ _ Hg).
Qed.

Lemma rethrow_or_wrap_service_error {A} code e (r : JsError) :
  @rethrow_or_wrap A code e = Throw r -> exists c, r = ServiceError c.
Proof.
  destruct e; simpl; intros H; injection H as <-; eauto.
Qed.

(** X16: [cancelSubscription] reaches the Edge Function only through
    the guard: either it makes the lookup alone and throws a
    [ServiceError], or the lookup found a record whose subscription
    reference is not empty and the function is invoked once, for this
    user and with that reference. It succeeds exactly when that
    invocation reports no error. *)
Theorem cancel_invokes_only_with_a_reference world edge userId :
  let (r, calls) := cancelSubscription world edge userId in
  (calls = [lookup] /\ exists code, r = Throw (ServiceError code))
  \/
  (exists s reference,
     getSubscription (world 0%nat) userId = Ok (Some s) /\
     stripe_subscription_id s = Some reference /\
     reference <> "" /\
     calls = [lookup; invoke "cancel-subscription" userId reference] /\
     (r = Ok tt <->
      exists d, edge "cancel-subscription" userId reference = invoke_reply d false)).
Proof.
  unfold cancelSubscription.
  destruct (subscription_reference world userId) as [reference|e] eqn:Href.
  - destruct (subscription_reference_ok _ _ _ Href) as (Hne & s & Hs & Hr).
    destruct (edge "cancel-subscription" userId reference) as [d [|]|] eqn:He;
      simpl; right; exists s, reference; rewrite He;
      (repeat (split; [assumption || reflexivity|])); split;
      try discriminate; try (intros (d' & Hd'); discriminate); eauto.
  - destruct (subscription_reference_throws _ _ _ Href) as (code & ->).
    simpl. left. eauto.
Qed.

(** X17: [reactivateSubscription] is guarded the same way, and what it
    returns is the record as the lookup after the invocation finds it:
    a success makes exactly the calls lookup, invoke, lookup. Every
    failure is a [ServiceError]. *)
Theorem reactivate_returns_the_record_read_back world edge userId :
  let (r, calls) := reactivateSubscription world edge userId in
  match r with
  | Ok updated =>
      exists s reference,
        getSubscription (world 0%nat) userId = Ok (Some s) /\
        stripe_subscription_id s = Some reference /\
        reference <> "" /\
        (exists d, edge "reactivate-subscription" userId reference
                   = invoke_reply d false) /\
        getSubscription (world 1%nat) userId = Ok (Some updated) /\
        calls = [lookup; invoke "reactivate-subscription" userId reference; lookup]
  | Throw e =>
      (exists code, e = ServiceError code) /\
      (forall fn u a, In (invoke fn u a) calls ->
         exists s, getSubscription (world 0%nat) userId = Ok (Some s) /\
                   stripe_subscription_id s = Some a /\ a <> "")
  end.
Proof.
  unfold reactivateSubscription.
  destruct (subscription_reference world userId) as [reference|e] eqn:Href.
  - destruct (subscription_reference_ok _ _ _ Href) as (Hne & s & Hs & Hr).
    assert (Hcalls : forall extra fn u a,
               In (invoke fn u a)
                  ([lookup; invoke "reactivate-subscription" userId reference]
                     ++ extra) ->
               (forall fn' u' a', ~ In (invoke fn' u' a') extra) ->
               exists s, getSubscription (world 0%nat) userId = Ok (Some s) /\
                         stripe_subscription_id s = Some a /\ a <> "").
    { intros extra fn u a Hin Hextra. simpl in Hin.
      destruct Hin as [Hin|[Hin|Hin]]; [discriminate| |now apply Hextra in Hin].
      injection Hin as <- <- <-. eauto. }
    destruct (edge "reactivate-subscription" userId reference) as [d [|]|] eqn:He.
    + cbn beta iota. split; [eauto|]. intros fn u a Hin.
      apply (Hcalls [] fn u a); [now rewrite app_nil_r | intros ? ? ? []].
    + destruct (getSubscription (world 1%nat) userId) as [[updated|]|e'] eqn:Hg;
        cbn beta iota.
      * exists s, reference. rewrite He. repeat (split; [eauto|]). reflexivity.
      * split; [eauto|]. intros fn u a Hin.
        apply (Hcalls [lookup] fn u a Hin).
        intros ? ? ? [H|[]]; discriminate.
      * destruct (getSubscription_throws_service_error _ _ _ Hg) as (c & ->).
        simpl. split; [eauto|].
        intros fn u a Hin. apply (Hcalls [lookup] fn u a Hin).
        intros ? ? ? [H|[]]; discriminate.
    + simpl. split; [eauto|]. intros fn u a Hin.
      apply (Hcalls [] fn u a); [now rewrite app_nil_r | intros ? ? ? []].
  - destruct (subscription_reference_throws _ _ _ Href) as (code & ->).
    simpl. split; [eauto|].
    intros fn u a [H|[]]. discriminate.
Qed.

(** X18: A checkout session is handed out only when the Edge Function
    reports no error and its reply carries all three of client secret,
    ephemeral key and customer id, none of them empty; the session
    repeats them unchanged. Anything else is a [ServiceError], and the
    function is invoked exactly once either way. *)
Theorem checkout_session_is_complete priceId edge userId :
  let (r, calls) := initializePremiumCheckout priceId edge userId in
  calls = [invoke "create-checkout-session" userId priceId] /\
  match r with
  | Ok session =>
      clientSecret session <> "" /\ ephemeralKey session <> "" /\
      customerId session <> "" /\
      edge "create-checkout-session" userId priceId =
      invoke_reply
        (Some {| data_clientSecret := Some (clientSecret session);
                 data_ephemeralKey := Some (ephemeralKey session);
                 data_customerId := Some (customerId session) |})
        false
  | Throw e =>
      exists code, e = ServiceError code /\
        In code ["CHECKOUT_INIT_FAILED"; "CHECKOUT_INVALID_RESPONSE";
                 "CHECKOUT_ERROR"]
  end.
Proof.
  unfold initializePremiumCheckout.
  destruct (edge "create-checkout-session" userId priceId)
    as [[[[cs|] [ek|] [cu|]]|] [|]|] eqn:He;
    cbn [data_clientSecret data_ephemeralKey data_customerId rethrow_or_wrap];
    try (split; [reflexivity | eexists; split; [reflexivity | simpl; tauto]]).
  destruct (String.eqb cs "") eqn:H1; cbn [orb];
    [split; [reflexivity | eexists; split; [reflexivity | simpl; tauto]]|].
  destruct (String.eqb ek "") eqn:H2; cbn [orb];
    [split; [reflexivity | eexists; split; [reflexivity | simpl; tauto]]|].
  destruct (String.eqb cu "") eqn:H3; cbn [orb];
    [split; [reflexivity | eexists; split; [reflexivity | simpl; tauto]]|].
  apply String.eqb_neq in H1, H2, H3. simpl. auto.
Qed.

(** X19: [presentPaymentSheet] reports success exactly when both SDK
    calls return without an error, a failure always carries an error,
    the sheet is presented only after it was initialised without
    error, and a cancellation by the user is reported under the code
    PAYMENT_CANCELED. *)
Theorem payment_sheet_result arabic init present :
  let (result, calls) := presentPaymentSheet arabic init present in
  (success result = true <-> init = sdk_ok /\ present = sdk_ok) /\
  (success result = false <-> payment_error result <> None) /\
  (In presentPaymentSheet_ calls <-> init = sdk_ok) /\
  (init = sdk_ok -> present = sdk_error "Canceled" ->
   option_map code (payment_error result) = Some "PAYMENT_CANCELED").
Proof.
  unfold presentPaymentSheet.
  destruct init as [|c|]; [destruct present as [|c|]|..];
    try destruct (String.eqb c "Canceled") eqn:Hc; simpl;
    repeat split; try congruence; try tauto;
    try (intros [? ?]; congruence);
    try (intros [H|[H|[]]]; congruence);
    try (intros [H|[]]; congruence).
  intros _ H. injection H as ->. discriminate.
Qed.

End ServiceActions.

(* ================================================================= *)
(** ** The subscription hook *)

Section HookFacts.

Import Service.

Lemma poll_throws_service_error world userId remaining attempt e :
  fst (poll world userId remaining attempt) = Throw e ->
  exists code, e = ServiceError code.
Proof.
  revert attempt. induction remaining as [|remaining IH]; intros attempt.
  - discriminate.
  - cbn [poll].
    specialize (IH (S attempt)).
    destruct (poll world userId remaining (S attempt)) as [r trace].
    destruct (getSubscription (world attempt) userId) as [[s|]|e'] eqn:Hg.
    + destruct (tier_eqb (tier s) premium); [discriminate | exact IH].
    + exact IH.
    + simpl. intros H. injection H as <-.
      exact (getSubscription_throws_service_error _ _ _ Hg).
Qed.

Lemma refresh_throws_service_error world userId e :
  fst (refreshSubscriptionStatus world userId) = Throw e ->
  exists code, e = ServiceError code.
Proof.
  unfold refreshSubscriptionStatus.
  pose proof (poll_throws_service_error world userId maxAttempts 0) as Hp.
  destruct (poll world userId maxAttempts 0) as [[[s|]|e'] trace]; simpl in *.
  - discriminate.
  - destruct (getSubscription _ userId) as [[s|]|e''] eqn:Hg; simpl.
    + discriminate.
    + intros H. injection H as <-. eauto.
    + destruct (getSubscription_throws_service_error _ _ _ Hg) as (c & ->).
      simpl. intros H. injection H as <-. eauto.
  - destruct (Hp e' eq_refl) as (c & ->). simpl.
    intros H. injection H as <-. eauto.
Qed.

(** X20: Once the hook has loaded the subscription of a signed-in
    user, its derived [isPremium] is the answer of the service's
    [hasPremiumAccess] on the same backend: both read false when the
    lookup fails or finds nothing. *)
Theorem isPremium_agrees_with_hasPremiumAccess b uid st :
  uid <> "" ->
  hasPremiumAccess b uid =
  Ok (Hook.isPremium (Hook.loadSubscription b (Some uid) st)).
Proof.
  intros Hne. unfold Hook.loadSubscription, Actions.falsy, hasPremiumAccess.
  apply String.eqb_neq in Hne. rewrite Hne.
  destruct (getSubscription b uid) as [[s|]|e]; reflexivity.
Qed.

Lemma isPremium_agrees_with_hasPremiumAccess_witness :
  hasPremiumAccess {| rows := Webhook.user_subscriptions Scenario.premium_store; fault := None |} "user-1" =
  Ok (Hook.isPremium
        (Hook.loadSubscription
           {| rows := Webhook.user_subscriptions Scenario.premium_store; fault := None |} (Some "user-1")
           {| Hook.subscription := None; Hook.isLoading := false;
              Hook.error := None |})).
Proof.
  apply isPremium_agrees_with_hasPremiumAccess. discriminate.
Defined.

(** X21: [upgradeToPremium] always ends with [isLoading] false. When
    it resolves, the hook holds the record the refresh returned and no
    error; when it rejects, it rejects with a [ServiceError], stores
    that same error and leaves the subscription it had. The payment
    sheet is touched only after a checkout session was obtained, and
    the database is polled only after both SDK calls returned without
    error. *)
Theorem upgrade_settles_the_hook_state arabic priceId edge init present world uid st :
  let '(r, st', steps) :=
    Hook.upgradeToPremium arabic priceId edge init present world uid st in
  Hook.isLoading st' = false /\
  match r with
  | Ok _ =>
      Hook.error st' = None /\
      exists updated,
        fst (refreshSubscriptionStatus world uid) = Ok updated /\
        Hook.subscription st' = Some updated
  | Throw e =>
      (exists code, e = ServiceError code) /\
      Hook.error st' = Some e /\
      Hook.subscription st' = Hook.subscription st
  end /\
  ((exists c, In (Hook.step_sdk c) steps) ->
   exists session,
     fst (Actions.initializePremiumCheckout priceId edge uid) = Ok session) /\
  ((exists e, In (Hook.step_poll e) steps) ->
   init = Actions.sdk_ok /\ present = Actions.sdk_ok).
Proof.
  unfold Hook.upgradeToPremium.
  pose proof (checkout_session_is_complete priceId edge uid) as Hc.
  destruct (Actions.initializePremiumCheckout priceId edge uid) as [checkout calls].
  destruct Hc as (-> & Hc).
  destruct checkout as [session|e].
  - pose proof (payment_sheet_result arabic init present) as Hs.
    destruct (Actions.presentPaymentSheet arabic init present) as [result sdk].
    destruct Hs as (Hok & Hfail & Hsdk & _).
    assert (Hnopoll : forall e',
               ~ In (Hook.step_poll e')
                   (map Hook.step_call
                      [Actions.invoke "create-checkout-session" uid priceId]
                      ++ map Hook.step_sdk sdk)).
    { intros e' Hin. apply in_app_or in Hin. destruct Hin as [[H|[]]|Hin];
        [discriminate|].
      apply in_map_iff in Hin. destruct Hin as (? & H & _). discriminate. }
    destruct (Actions.success result) eqn:Hsucc; cbn [negb].
    + pose proof (refresh_throws_service_error world uid) as Hr.
      destruct (refreshSubscriptionStatus world uid) as [[updated|e] polls];
        cbn [fst] in *.
      * split; [reflexivity|]. split; [split; [reflexivity|eauto]|].
        split; [eauto|]. intros _. now apply Hok.
      * unfold Hook.upgrade_failed. destruct (Hr e eq_refl) as (c & ->).
        split; [reflexivity|]. split; [simpl; eauto|].
        split; [eauto|]. intros _. now apply Hok.
    + assert (Hno : (exists e', In (Hook.step_poll e')
                      (map Hook.step_call
                         [Actions.invoke "create-checkout-session" uid priceId]
                         ++ map Hook.step_sdk sdk)) ->
                    init = Actions.sdk_ok /\ present = Actions.sdk_ok)
        by (intros (e' & Hin); now apply Hnopoll in Hin).
      destruct (Actions.payment_error result) as [err|];
        unfold Hook.upgrade_failed; simpl;
        (split; [reflexivity|]); (split; [eauto|]); split; eauto.
  - destruct Hc as (code & -> & _). unfold Hook.upgrade_failed. simpl.
    split; [reflexivity|]. split; [eauto|]. split.
    + intros (c & [H|[]]). discriminate.
    + intros (e' & [H|[]]). discriminate.
Qed.

End HookFacts.

(* ================================================================= *)
(** ** Error classification *)

Section GeminiErrors.

Import Gemini.

Lemma or_else_nonempty a b : b <> "" -> or_else a b <> "".
Proof.
  intros Hb. unfold or_else. destruct a as [v|]; [|exact Hb].
  destruct (String.eqb v "") eqn:Hv; [exact Hb|].
  now apply String.eqb_neq.
Qed.

Ltac classify :=
  unfold parseGeminiError;
  repeat match goal with
         | |- context [if ?c then _ else _] => destruct c
         end.

(** X22: A parsed Gemini error is marked not retryable exactly when it
    is classified as an invalid prompt or as filtered content, which
    are exactly the errors that get the code VALIDATION_ERROR. The
    exam and practice generation errors built from it keep that
    classification and that mark. *)
Theorem only_validation_errors_are_final e :
  let parsed := parseGeminiError e in
  (isRetryable parsed = false <->
   geminiType parsed = INVALID_PROMPT \/ geminiType parsed = CONTENT_FILTER) /\
  (isRetryable parsed = false <-> code parsed = "VALIDATION_ERROR") /\
  (isRetryable (createExamGenerationError e) = false <->
   geminiType (createExamGenerationError e) = INVALID_PROMPT \/
   geminiType (createExamGenerationError e) = CONTENT_FILTER) /\
  (isRetryable (createPracticeGenerationError e) = false <->
   geminiType (createPracticeGenerationError e) = INVALID_PROMPT \/
   geminiType (createPracticeGenerationError e) = CONTENT_FILTER).
Proof.
  unfold createExamGenerationError, createPracticeGenerationError, isRetryable.
  cbn [geminiType retryable].
  classify; cbn; repeat split; intros; try discriminate; try tauto;
    try (destruct H; discriminate).
Qed.

(** X23: Whatever is caught, the parsed error carries a message and an
    Arabic message, neither of them empty: an error without a message
    of its own is reported as Unknown error. *)
Theorem parsed_error_always_has_messages e :
  message (parseGeminiError e) <> "" /\
  arabicMessage (parseGeminiError e) <> "".
Proof.
  classify; cbn; split; try discriminate.
  apply or_else_nonempty, or_else_nonempty. discriminate.
Qed.

Lemma getRetryDelay_closed_form n :
  1 <= n ->
  (getRetryDelay n == inject_Z (Z.min (1000 * 2 ^ (n - 1)) 10000))%Q.
Proof.
  intros Hn. unfold getRetryDelay, Math_min.
  assert (Hp : (1000 * Qpower 2 (n - 1) == inject_Z (1000 * 2 ^ (n - 1)))%Q).
  { rewrite inject_Z_mult, (Zpower_Qpower 2 (n - 1)) by lia. reflexivity. }
  destruct (Qle_bool (1000 * Qpower 2 (n - 1)) 10000) eqn:Hle.
  - apply Qle_bool_iff in Hle. rewrite Hp in Hle.
    change 10000%Q with (inject_Z 10000) in Hle. rewrite <- Zle_Qle in Hle.
    rewrite Z.min_l by exact Hle. exact Hp.
  - assert (Hgt : ~ (1000 * Qpower 2 (n - 1) <= 10000)%Q)
      by (rewrite <- Qle_bool_iff, Hle; discriminate).
    rewrite Hp in Hgt.
    change 10000%Q with (inject_Z 10000) in Hgt. rewrite <- Zle_Qle in Hgt.
    rewrite Z.min_r by lia. reflexivity.
Qed.

(** X24: From the first attempt on, the retry delay starts at one
    second, never shrinks from one attempt to a later one, never
    exceeds ten seconds and is ten seconds from the fifth attempt
    on. *)
Theorem retry_delay_is_capped_backoff n m :
  1 <= n -> n <= m ->
  (1000 <= getRetryDelay n)%Q /\
  (getRetryDelay n <= getRetryDelay m)%Q /\
  (getRetryDelay m <= 10000)%Q /\
  (getRetryDelay 1 == 1000)%Q /\
  (5 <= n -> (getRetryDelay n == 10000)%Q).
Proof.
  intros Hn Hm.
  rewrite (getRetryDelay_closed_form n), (getRetryDelay_closed_form m),
    (getRetryDelay_closed_form 1) by lia.
  assert (H1 : 0 < 2 ^ (n - 1)) by (apply Z.pow_pos_nonneg; lia).
  assert (Hmono : 2 ^ (n - 1) <= 2 ^ (m - 1))
    by (apply Z.pow_le_mono_r; lia).
  change 1000%Q with (inject_Z 1000). change 10000%Q with (inject_Z 10000).
  rewrite <- !Zle_Qle.
  repeat split; try lia.
  intros H5.
  assert (H16 : 2 ^ 4 <= 2 ^ (n - 1)) by (apply Z.pow_le_mono_r; lia).
  change (2 ^ 4) with 16 in H16.
  rewrite Z.min_r by lia. reflexivity.
Qed.

Lemma retry_delay_is_capped_backoff_witness :
  (1000 <= getRetryDelay 2)%Q /\
  (getRetryDelay 2 <= getRetryDelay 6)%Q /\
  (getRetryDelay 6 <= 10000)%Q /\
  (getRetryDelay 1 == 1000)%Q /\
  (5 <= 2 -> (getRetryDelay 2 == 10000)%Q).
Proof.
  apply retry_delay_is_capped_backoff; lia.
Defined.

End GeminiErrors.

(* ================================================================= *)
(** ** Retry with backoff *)

Section RetryFacts.

Import Network.

Context {T : Type}.
Variable fn : nat -> Result Caught T.
Variable config : RetryConfig.

Lemma gives_up_iff_fatal c :
  type_eqb (type (parseNetworkError c)) UNAUTHORIZED ||
  type_eqb (type (parseNetworkError c)) FORBIDDEN ||
  type_eqb (type (parseNetworkError c)) NOT_FOUND = true <-> fatal c.
Proof.
  unfold fatal. destruct (type (parseNetworkError c)); simpl; split;
    try discriminate; try tauto;
    intros H; repeat (destruct H as [H|H]; try discriminate); contradiction.
Qed.

Lemma retry_loop_spec remaining attempt delay :
  Z.of_nat (attempt + remaining) = maxRetries config + 1 ->
  (1 <= remaining)%nat ->
  let (r, steps) := retry_loop fn config remaining attempt delay in
  (1 <= calls steps <= remaining)%nat /\
  List.length (sleeps steps) = (calls steps - 1)%nat /\
  (forall k, (attempt <= k < attempt + calls steps - 1)%nat ->
             exists c, fn k = Throw c /\ ~ fatal c) /\
  exists res,
    r = Some res /\
    match res with
    | Ok v => fn (attempt + calls steps - 1)%nat = Ok v
    | Throw t =>
        exists c, fn (attempt + calls steps - 1)%nat = Throw c /\
                  t = thrown (parseNetworkError c) /\
                  (fatal c \/
                   Z.of_nat (attempt + calls steps) = maxRetries config + 1)
    end.
Proof.
  revert attempt delay.
  induction remaining as [|remaining IH]; intros attempt delay Hsum Hpos; [lia|].
  cbn [retry_loop].
  destruct (fn attempt) as [v|c] eqn:Hfn.
  - cbn. repeat split; try lia.
    exists (Ok v). split; [reflexivity|].
    replace (attempt + 1 - 1)%nat with attempt by lia. exact Hfn.
  - destruct (type_eqb (type (parseNetworkError c)) UNAUTHORIZED ||
              type_eqb (type (parseNetworkError c)) FORBIDDEN ||
              type_eqb (type (parseNetworkError c)) NOT_FOUND) eqn:Hstop.
    + apply gives_up_iff_fatal in Hstop.
      cbn. repeat split; try lia.
      exists (Throw (thrown (parseNetworkError c))). split; [reflexivity|].
      exists c. replace (attempt + 1 - 1)%nat with attempt by lia. auto.
    + assert (Hnf : ~ fatal c)
        by (rewrite <- gives_up_iff_fatal, Hstop; discriminate).
      destruct (Z.of_nat attempt =? maxRetries config) eqn:Hlast.
      * apply Z.eqb_eq in Hlast.
        cbn. repeat split; try lia.
        exists (Throw (thrown (parseNetworkError c))). split; [reflexivity|].
        exists c. replace (attempt + 1 - 1)%nat with attempt by lia.
        repeat split; [exact Hfn|]. right. lia.
      * apply Z.eqb_neq in Hlast.
        specialize (IH (S attempt)
                       (Z.min (delay * backoffMultiplier config) (maxDelayMs config))
                       ltac:(lia) ltac:(lia)).
        destruct (retry_loop fn config remaining (S attempt) _) as [r steps].
        destruct IH as (Hcalls & Hsleeps & Hbefore & res & -> & Hres).
        cbn [calls sleeps List.length].
        repeat split; try lia.
        -- intros k Hk.
           destruct (Nat.eq_dec k attempt) as [->|Hne]; [eauto|].
           apply Hbefore. lia.
        -- exists res. split; [reflexivity|].
           replace (attempt + S (calls steps) - 1)%nat
             with (S attempt + calls steps - 1)%nat by lia.
           replace (attempt + S (calls steps))%nat
             with (S attempt + calls steps)%nat by lia.
           exact Hres.
Qed.


(** X25: [retryWithBackoff] calls the function at most [maxRetries + 1]
    times, one call after the other with a wait between two calls, and
    stops at the first call that succeeds or fails with an
    unauthorized, forbidden or not-found error. It returns that first
    success, or throws the parsed error of its last call; with a
    negative [maxRetries] it makes no call at all and throws
    undefined. *)
Theorem retry_calls_until_settled :
  let (r, steps) := retryWithBackoff fn config in
  (calls steps <= Z.to_nat (maxRetries config + 1))%nat /\
  List.length (sleeps steps) = (calls steps - 1)%nat /\
  (forall k, (k < calls steps - 1)%nat -> exists c, fn k = Throw c /\ ~ fatal c) /\
  match r with
  | Ok v => (1 <= calls steps)%nat /\ fn (calls steps - 1)%nat = Ok v
  | Throw (thrown e) =>
      (1 <= calls steps)%nat /\
      exists c, fn (calls steps - 1)%nat = Throw c /\
                e = parseNetworkError c /\
                (fatal c \/ Z.of_nat (calls steps) = maxRetries config + 1)
  | Throw thrown_undefined => maxRetries config < 0 /\ steps = []
  end.
Proof.
  unfold retryWithBackoff.
  destruct (Z.to_nat (maxRetries config + 1)) as [|n] eqn:Hn.
  - cbn. repeat split; lia.
  - pose proof (retry_loop_spec (S n) 0 (initialDelayMs config)
                  ltac:(lia) ltac:(lia)) as H.
    destruct (retry_loop fn config (S n) 0 (initialDelayMs config)) as [r steps].
    destruct H as (Hcalls & Hsleeps & Hbefore & res & -> & Hres).
    cbn [plus] in *.
    repeat split; try lia.
    + intros k Hk. apply Hbefore. lia.
    + destruct res as [v|t].
      * split; [lia | exact Hres].
      * destruct Hres as (c & Hc & -> & Hwhy). split; [lia|]. eauto.
Qed.


(** X27: An error that [isRetryableError] calls retryable is retried:
    when the first call fails with such an error, a retry is allowed
    and the second call succeeds, [retryWithBackoff] returns the second
    call's result after waiting the initial delay once. *)
Theorem retryable_errors_are_retried e v :
  isRetryableError e = true ->
  1 <= maxRetries config ->
  fn 0%nat = Throw e ->
  fn 1%nat = Ok v ->
  retryWithBackoff fn config =
  (Ok v, [call; sleep (initialDelayMs config); call]).
Proof.
  intros Hretry Hmax H0 H1. unfold retryWithBackoff.
  destruct (Z.to_nat (maxRetries config + 1)) as [|[|n]] eqn:Hn; try lia.
  assert (Hz : (Z.of_nat 0 =? maxRetries config) = false)
    by (apply Z.eqb_neq; simpl; lia).
  cbn [retry_loop]. rewrite H0, H1, Hz.
  unfold isRetryableError in Hretry.
  destruct (type (parseNetworkError e)); try discriminate; reflexivity.
Qed.

End RetryFacts.

Lemma retryable_errors_are_retried_witness :
  Network.retryWithBackoff flaky_once Network.defaultRetryConfig =
  (Ok tt, [Network.call; Network.sleep 1000; Network.call]).
Proof.
  apply (retryable_errors_are_retried flaky_once Network.defaultRetryConfig
           (http_error 503) tt);
    [reflexivity | simpl; lia | reflexivity | reflexivity].
Defined.

(** X28: With the default configuration [retryWithBackoff] makes at
    most four calls and waits 1000, 2000 and 4000 ms between them,
    seven seconds at most. *)
Theorem default_retry_waits_at_most_seven_seconds {T : Type}
  (fn : nat -> Result Network.Caught T) :
  let steps := snd (Network.retryWithBackoff fn Network.defaultRetryConfig) in
  (Network.calls steps <= 4)%nat /\
  Network.sleeps steps =
  firstn (Network.calls steps - 1) [1000; 2000; 4000] /\
  fold_right Z.add 0 (Network.sleeps steps) <= 7000.
Proof.
  unfold Network.retryWithBackoff, Network.defaultRetryConfig.
  cbn [Network.maxRetries Network.initialDelayMs Network.maxDelayMs
       Network.backoffMultiplier].
  change (Z.to_nat (3 + 1)) with 4%nat.
  cbn [Network.retry_loop Network.maxRetries Network.maxDelayMs
       Network.backoffMultiplier].
  change (Z.of_nat 0 =? 3) with false. change (Z.of_nat 1 =? 3) with false.
  change (Z.of_nat 2 =? 3) with false. change (Z.of_nat 3 =? 3) with true.
  repeat match goal with
         | |- context [fn ?k] => destruct (fn k)
         | |- context [if ?c then _ else _] => destruct c
         end; cbn; repeat split; lia.
Qed.
